(** * Multi-headed attention (labml_nn/transformers/mha.py)

    A shallow embedding of [PrepareForMultiHeadAttention] and
    [MultiHeadAttention].

    - A tensor is a shape together with its row-major storage, as in torch.
    - Tensor entries and Python floats are real numbers; rounding is not
      modelled.
    - Python exceptions are an explicit error result.
    - The two side effects of a forward call (the [tracker.debug] emission
      and the assignment to [self.attn]) are threaded through a state.
    - The Bernoulli sample drawn by [nn.Dropout] is an explicit argument. *)

From Stdlib Require Import String Bool Arith ZArith Lia List.
From Stdlib Require Import Floats.
From Stdlib Require Import Reals Lra.
Import ListNotations.

Set Implicit Arguments.

(** ** Python exceptions *)

Inductive exn : Type :=
| AssertionError
| RuntimeError
| ValueError
| ZeroDivisionError
| IndexError.

Inductive result (A : Type) : Type :=
| Ok (a : A)
| Raise (e : exn).

Arguments Ok {A} a.
Arguments Raise {A} e.

Definition rbind {A B : Type} (r : result A) (k : A -> result B) : result B :=
  match r with
  | Ok a => k a
  | Raise e => Raise e
  end.

Notation "'do' x <- r ; k" := (rbind r (fun x => k))
  (at level 10, x name, r at level 100, k at level 200).

(** ** Tensors: shape and row-major storage *)

Record Tensor (A : Type) : Type := mkTensor {
  shape : list nat;
  data : list A
}.

Definition numel (sh : list nat) : nat := fold_right Nat.mul 1 sh.

Definition wf {A : Type} (t : Tensor A) : Prop :=
  length (data t) = numel (shape t).

(** Row-major offset of a multi-index, and the multi-index of an offset. *)
Fixpoint ravel (sh idx : list nat) : nat :=
  match sh, idx with
  | _ :: ds, i :: js => i * numel ds + ravel ds js
  | _, _ => 0
  end.

Fixpoint unravel (sh : list nat) (k : nat) : list nat :=
  match sh with
  | [] => []
  | _ :: ds => (k / numel ds) :: unravel ds (k mod numel ds)
  end.

(** [in_range sh idx]: [idx] addresses an entry of a tensor of shape [sh]. *)
Fixpoint in_range (sh idx : list nat) : Prop :=
  match sh, idx with
  | [], [] => True
  | d :: ds, i :: js => i < d /\ in_range ds js
  | _, _ => False
  end.

Definition get {A : Type} (dflt : A) (t : Tensor A) (idx : list nat) : A :=
  nth (ravel (shape t) idx) (data t) dflt.

Definition build {A : Type} (sh : list nat) (f : list nat -> A) : Tensor A :=
  mkTensor sh (map (fun k => f (unravel sh k)) (seq 0 (numel sh))).

(** Broadcasting of one dimension, and of shapes aligned on the right. *)
Definition bdim (a b : nat) : option nat :=
  if a =? b then Some a
  else if a =? 1 then Some b
  else if b =? 1 then Some a
  else None.

Fixpoint bshape_rev (r1 r2 : list nat) : option (list nat) :=
  match r1, r2 with
  | [], _ => Some r2
  | _, [] => Some r1
  | a :: r1', b :: r2' =>
      match bdim a b, bshape_rev r1' r2' with
      | Some d, Some r => Some (d :: r)
      | _, _ => None
      end
  end.

Definition broadcast_shapes (s1 s2 : list nat) : option (list nat) :=
  option_map (@rev nat) (bshape_rev (rev s1) (rev s2)).

Fixpoint bzip (sh idx : list nat) : list nat :=
  match sh, idx with
  | d :: ds, i :: js => (if d =? 1 then 0 else i) :: bzip ds js
  | _, _ => []
  end.

(** The index into [t] that a broadcast index [idx] reads. *)
Definition bindex (sh idx : list nat) : list nat :=
  bzip sh (skipn (length idx - length sh) idx).

Definition bget {A : Type} (dflt : A) (t : Tensor A) (idx : list nat) : A :=
  get dflt t (bindex (shape t) idx).

(** ** Real-valued tensor operations of torch used by the module *)

Definition Rsum (n : nat) (f : nat -> R) : R :=
  fold_right Rplus 0%R (map f (seq 0 n)).

(** The [n]-th component of a multi-index. *)
Definition ix (idx : list nat) (n : nat) : nat := nth n idx 0.

(** [Tensor.view]: same storage, new shape with the same number of entries. *)
Definition view {A : Type} (t : Tensor A) (sh : list nat) : result (Tensor A) :=
  if numel sh =? numel (shape t) then Ok (mkTensor sh (data t))
  else Raise RuntimeError.

(** [Tensor.reshape(s, b, -1)]: the last size is inferred; torch refuses to
    infer it when the given sizes multiply to zero or do not divide the
    number of entries. *)
Definition reshape_infer_last {A : Type} (t : Tensor A) (s b : nat)
  : result (Tensor A) :=
  let newsize := s * b in
  if newsize =? 0 then Raise RuntimeError
  else if numel (shape t) mod newsize =? 0
       then Ok (mkTensor [s; b; numel (shape t) / newsize] (data t))
       else Raise RuntimeError.

(** [Tensor.unsqueeze(-1)]. *)
Definition unsqueeze_last {A : Type} (t : Tensor A) : Tensor A :=
  mkTensor (shape t ++ [1]) (data t).

(** [mask == 0]. *)
Definition eq0 (mask : Tensor bool) : Tensor bool :=
  mkTensor (shape mask) (map negb (data mask)).

(** [Tensor.masked_fill(m, v)], out of place: both operands broadcast. *)
Definition masked_fill (t : Tensor R) (m : Tensor bool) (v : R)
  : result (Tensor R) :=
  match broadcast_shapes (shape t) (shape m) with
  | Some sh =>
      Ok (build sh (fun idx => if bget false m idx then v else bget 0%R t idx))
  | None => Raise RuntimeError
  end.

(** [t *= c] for a Python scalar [c]. *)
Definition mul_scalar (t : Tensor R) (c : R) : Tensor R :=
  mkTensor (shape t) (map (fun x => (x * c)%R) (data t)).

(** Replace the component of a multi-index on axis 1. *)
Definition set1 (idx : list nat) (j : nat) : list nat :=
  match idx with
  | i :: _ :: rest => i :: j :: rest
  | _ => idx
  end.

(** [F.softmax(t, dim=1)]. *)
Definition softmax_dim1 (t : Tensor R) : result (Tensor R) :=
  match shape t with
  | _ :: nj :: _ =>
      Ok (build (shape t) (fun idx =>
            (exp (get 0%R t idx)
             / Rsum nj (fun j => exp (get 0%R t (set1 idx j))))%R))
  | _ => Raise IndexError
  end.

(** [torch.einsum('ibhd,jbhd->ijbh', q, k)]; sizes under one letter must
    agree or be 1. *)
Definition einsum_qk (q k : Tensor R) : result (Tensor R) :=
  match shape q, shape k with
  | [ni; b1; h1; d1], [nj; b2; h2; d2] =>
      match bdim b1 b2, bdim h1 h2, bdim d1 d2 with
      | Some nb, Some nh, Some nd =>
          Ok (build [ni; nj; nb; nh] (fun idx =>
                let i := ix idx 0 in let j := ix idx 1 in
                let b := ix idx 2 in let h := ix idx 3 in
                Rsum nd (fun d =>
                  (bget 0%R q [i; b; h; d] * bget 0%R k [j; b; h; d])%R)))
      | _, _, _ => Raise RuntimeError
      end
  | _, _ => Raise RuntimeError
  end.

(** [torch.einsum("ijbh,jbhd->ibhd", a, v)]. *)
Definition einsum_av (a v : Tensor R) : result (Tensor R) :=
  match shape a, shape v with
  | [ni; j1; b1; h1], [j2; b2; h2; nd] =>
      match bdim j1 j2, bdim b1 b2, bdim h1 h2 with
      | Some nj, Some nb, Some nh =>
          Ok (build [ni; nb; nh; nd] (fun idx =>
                let i := ix idx 0 in let b := ix idx 1 in
                let h := ix idx 2 in let d := ix idx 3 in
                Rsum nj (fun j =>
                  (bget 0%R a [i; j; b; h] * bget 0%R v [j; b; h; d])%R)))
      | _, _, _ => Raise RuntimeError
      end
  | _, _ => Raise RuntimeError
  end.

(** ** [nn.Linear] *)

Record Linear : Type := mkLinear {
  in_features : nat;
  out_features : nat;
  weight : nat -> nat -> R;        (* [weight o i], shape [out, in] *)
  lbias : option (nat -> R)
}.

(** [nn.Linear(i, o, bias)]; [w] and [b] are the initial parameter values. *)
Definition nn_Linear (i o : Z) (use_bias : bool)
    (w : nat -> nat -> R) (b : nat -> R) : result Linear :=
  if ((i <? 0) || (o <? 0))%Z then Raise RuntimeError
  else Ok (mkLinear (Z.to_nat i) (Z.to_nat o) w
             (if use_bias then Some b else None)).

(** The layer applied to a tensor of shape [[s; b; in_features]]. *)
Definition linear_call (l : Linear) (x : Tensor R) : result (Tensor R) :=
  match shape x with
  | [s; b; c] =>
      if c =? in_features l then
        Ok (build [s; b; out_features l] (fun idx =>
              (Rsum c (fun k =>
                 get 0%R x [ix idx 0; ix idx 1; k] * weight l (ix idx 2) k)
               + match lbias l with
                 | Some bv => bv (ix idx 2)
                 | None => 0
                 end)%R))
      else Raise RuntimeError
  | _ => Raise RuntimeError
  end.

(** ** [nn.Dropout] *)

Record Dropout : Type := mkDropout { p : R }.

Definition nn_Dropout (prob : R) : result Dropout :=
  if Rlt_dec prob 0 then Raise ValueError
  else if Rlt_dec 1 prob then Raise ValueError
  else Ok (mkDropout prob).

Definition mapi {A B : Type} (f : nat -> A -> B) (l : list A) : list B :=
  map (fun kx => f (fst kx) (snd kx)) (combine (seq 0 (length l)) l).

(** [noise k] is the Bernoulli draw for the entry at offset [k]
    ([true]: the entry is kept). *)
Definition dropout_call (training : bool) (d : Dropout) (noise : nat -> bool)
    (x : Tensor R) : Tensor R :=
  if training then
    if Req_dec_T (p d) 0 then x
    else if Req_dec_T (p d) 1
         then mkTensor (shape x) (map (fun v => (v * 0)%R) (data x))
         else mkTensor (shape x)
                (mapi (fun k v =>
                   (v * (if noise k then / (1 - p d) else 0))%R) (data x))
  else x.

(** ** PrepareForMultiHeadAttention *)

Record PrepareForMultiHeadAttention : Type := mkPrepare {
  linear : Linear;
  prep_heads : nat;
  prep_d_k : nat
}.

Definition Prepare_init (d_model heads d_k : Z) (bias : bool)
    (w : nat -> nat -> R) (b : nat -> R)
  : result PrepareForMultiHeadAttention :=
  do l <- nn_Linear d_model (heads * d_k) bias w b;
  Ok (mkPrepare l (Z.to_nat heads) (Z.to_nat d_k)).

(** The head split: [x.view(seq_len, batch_size, heads, d_k)]. *)
Definition split_heads (x : Tensor R) (seq_len batch_size heads d_k : nat)
  : result (Tensor R) :=
  view x [seq_len; batch_size; heads; d_k].

Definition Prepare_call (m : PrepareForMultiHeadAttention) (x : Tensor R)
  : result (Tensor R) :=
  match shape x with
  | [seq_len; batch_size; _] =>
      do x1 <- linear_call (linear m) x;
      split_heads x1 seq_len batch_size (prep_heads m) (prep_d_k m)
  | _ => Raise ValueError
  end.

(** ** MultiHeadAttention *)

Record MultiHeadAttention : Type := mkMHA {
  d_k : nat;
  heads : nat;
  query : PrepareForMultiHeadAttention;
  key : PrepareForMultiHeadAttention;
  value : PrepareForMultiHeadAttention;
  output : Linear;
  dropout : Dropout;
  scale : R;
  training : bool                   (* [nn.Module.training] *)
}.

(** Initial values of the learned parameters. *)
Record Params : Type := mkParams {
  w_query : nat -> nat -> R;  b_query : nat -> R;
  w_key : nat -> nat -> R;    b_key : nat -> R;
  w_value : nat -> nat -> R;  b_value : nat -> R;
  w_output : nat -> nat -> R; b_output : nat -> R
}.

(** [1 / math.sqrt(d_k)]. *)
Definition inv_sqrt (d_k : Z) : result R :=
  if (d_k <? 0)%Z then Raise ValueError
  else if (d_k =? 0)%Z then Raise ZeroDivisionError
  else Ok (1 / sqrt (IZR d_k))%R.

(** [MultiHeadAttention.__init__]; [//] is floor division, as [Z.div]. *)
Definition init (heads d_model : Z) (dropout_prob : R) (bias : bool)
    (w : Params) : result MultiHeadAttention :=
  if (heads =? 0)%Z then Raise ZeroDivisionError
  else
    let d_k := (d_model / heads)%Z in
    do q <- Prepare_init d_model heads d_k bias (w_query w) (b_query w);
    do k <- Prepare_init d_model heads d_k bias (w_key w) (b_key w);
    do v <- Prepare_init d_model heads d_k bias (w_value w) (b_value w);
    do o <- nn_Linear d_model d_model true (w_output w) (b_output w);
    do dr <- nn_Dropout dropout_prob;
    do sc <- inv_sqrt d_k;
    Ok (mkMHA (Z.to_nat d_k) (Z.to_nat heads) q k v o dr sc true).

(** [nn.Module.eval()] and [nn.Module.train()]. *)
Definition eval (m : MultiHeadAttention) : MultiHeadAttention :=
  mkMHA (d_k m) (heads m) (query m) (key m) (value m) (output m)
        (dropout m) (scale m) false.

Definition train (m : MultiHeadAttention) : MultiHeadAttention :=
  mkMHA (d_k m) (heads m) (query m) (key m) (value m) (output m)
        (dropout m) (scale m) true.

(** [get_scores]. *)
Definition get_scores (q k : Tensor R) : result (Tensor R) := einsum_qk q k.

(** The mask assertion of [__call__] followed by [mask.unsqueeze(-1)].
    [or] is short-circuit: [mask.shape[1]] is read only when
    [mask.shape[0] != 1]. *)
Definition check_mask (mask : Tensor bool) : result (Tensor bool) :=
  match shape mask with
  | [] => Raise IndexError
  | m0 :: rest =>
      if m0 =? 1 then Ok (unsqueeze_last mask)
      else match rest with
           | [] => Raise IndexError
           | m1 :: _ =>
               if m0 =? m1 then Ok (unsqueeze_last mask)
               else Raise AssertionError
           end
  end.

(** The head concatenation: [x.reshape(seq_len, batch_size, -1)]. *)
Definition concat_heads (x : Tensor R) (seq_len batch_size : nat)
  : result (Tensor R) :=
  reshape_infer_last x seq_len batch_size.

(** What a call can change: [self.attn] and what [tracker.debug] received. *)
Record State : Type := mkState {
  attn : option (Tensor R);
  tracker : list (string * Tensor R)
}.

Definition M (A : Type) : Type := State -> result A * State.

Definition lift {A : Type} (r : result A) : M A := fun st => (r, st).

Definition mbind {A B : Type} (c : M A) (k : A -> M B) : M B :=
  fun st =>
    match c st with
    | (Ok a, st') => k a st'
    | (Raise e, st') => (Raise e, st')
    end.

Notation "x <-- c ;; k" := (mbind c (fun x => k))
  (at level 10, c at level 100, k at level 200).

Definition tracker_debug (name : string) (t : Tensor R) : M unit :=
  fun st => (Ok tt, mkState (attn st) (tracker st ++ [(name, t)])).

Definition set_attn (t : Tensor R) : M unit :=
  fun st => (Ok tt, mkState (Some t) (tracker st)).

(** The masking sentinel [-1e9]. *)
Definition sentinel : R := (-1000000000)%R.

(** [scores = self.get_scores(query, key); scores *= self.scale]. *)
Definition scaled_scores (m : MultiHeadAttention) (q k : Tensor R)
  : result (Tensor R) :=
  do scores <- get_scores q k;
  Ok (mul_scalar scores (scale m)).

(** [if mask is not None: scores = scores.masked_fill(mask == 0, -1e9)]. *)
Definition apply_mask (scores : Tensor R) (mask : option (Tensor bool))
  : result (Tensor R) :=
  match mask with
  | Some mk => masked_fill scores (eq0 mk) sentinel
  | None => Ok scores
  end.

(** Steps of [__call__] from the scores to the softmax, given the projected
    query and key and the unsqueezed mask. *)
Definition attention_weights (m : MultiHeadAttention) (q k : Tensor R)
    (mask : option (Tensor bool)) : result (Tensor R) :=
  do scores <- scaled_scores m q k;
  do scores <- apply_mask scores mask;
  softmax_dim1 scores.

(** [MultiHeadAttention.__call__]. *)
Definition forward (m : MultiHeadAttention) (q k v : Tensor R)
    (mask : option (Tensor bool)) (noise : nat -> bool) : M (Tensor R) :=
  match shape q with
  | [seq_len; batch_size; _] =>
      mask <-- lift (match mask with
                     | Some mk => do mk' <- check_mask mk; Ok (Some mk')
                     | None => Ok None
                     end) ;;
      q <-- lift (Prepare_call (query m) q) ;;
      k <-- lift (Prepare_call (key m) k) ;;
      v <-- lift (Prepare_call (value m) v) ;;
      a <-- lift (attention_weights m q k mask) ;;
      _ <-- tracker_debug "attn" a ;;
      let a := dropout_call (training m) (dropout m) noise a in
      x <-- lift (einsum_av a v) ;;
      _ <-- set_attn a ;;
      x <-- lift (concat_heads x seq_len batch_size) ;;
      lift (linear_call (output m) x)
  | _ => lift (Raise ValueError)
  end.

(** ** Configurations and inputs the theorems range over *)

Definition prepare_ok (pm : PrepareForMultiHeadAttention) (d_model h dk : nat)
  : Prop :=
  in_features (linear pm) = d_model /\ out_features (linear pm) = h * dk /\
  prep_heads pm = h /\ prep_d_k pm = dk.

(** What [init] establishes about the layers of a module, whatever the mode
    and the parameter values. *)
Definition well_configured (m : MultiHeadAttention) (d_model : nat) : Prop :=
  prepare_ok (query m) d_model (heads m) (d_k m) /\
  prepare_ok (key m) d_model (heads m) (d_k m) /\
  prepare_ok (value m) d_model (heads m) (d_k m) /\
  in_features (output m) = d_model /\ out_features (output m) = d_model /\
  0 < heads m /\ 0 < d_k m.

(** Dropout is the identity: evaluation mode, or probability zero. *)
Definition dropout_disabled (m : MultiHeadAttention) : Prop :=
  training m = false \/ p (dropout m) = 0%R.

(** A mask of shape [[mask_q; seq_len_k; batch_size]] that the call accepts
    and that broadcasts against the scores. *)
Definition mask_ok (mask : option (Tensor bool)) (sq sk b : nat) : Prop :=
  match mask with
  | None => True
  | Some mk =>
      exists mq, shape mk = [mq; sk; b] /\ (mq = 1 \/ (mq = sq /\ sq = sk))
  end.

(** [mask[i, j, b]], the query axis broadcast when its size is 1. *)
Definition mask_at (mk : Tensor bool) (i j b : nat) : bool :=
  get true mk [if hd 0 (shape mk) =? 1 then 0 else i; j; b].

(** Whether query [i] may attend to key [j] in batch [b]. *)
Definition admits (mask : option (Tensor bool)) (i j b : nat) : bool :=
  match mask with
  | Some mk => mask_at mk i j b
  | None => true
  end.

(** The documented input shapes. *)
Definition shapes_ok (q k v : Tensor R) (sq sk b d_model : nat) : Prop :=
  shape q = [sq; b; d_model] /\ shape k = [sk; b; d_model] /\
  shape v = [sk; b; d_model].

(** The intermediate tensors of a call: the three linear transforms [lq],
    [lk], [lv], the scaled scores [s], the masked scores [s'], the softmax
    output [a] and the aggregated values [x]. *)
Record steps (m : MultiHeadAttention) (q k v : Tensor R)
    (mask : option (Tensor bool)) (noise : nat -> bool) (sq sk b : nat)
    (lq lk lv s s' a x : Tensor R) : Prop := mkSteps {
  st_query :
    Prepare_call (query m) q = Ok (mkTensor [sq; b; heads m; d_k m] (data lq));
  st_key :
    Prepare_call (key m) k = Ok (mkTensor [sk; b; heads m; d_k m] (data lk));
  st_value :
    Prepare_call (value m) v = Ok (mkTensor [sk; b; heads m; d_k m] (data lv));
  st_lq : linear_call (linear (query m)) q = Ok lq;
  st_lk : linear_call (linear (key m)) k = Ok lk;
  st_lv : linear_call (linear (value m)) v = Ok lv;
  st_lv_shape : shape lv = [sk; b; heads m * d_k m];
  st_lv_wf : wf lv;
  st_scores :
    scaled_scores m (mkTensor [sq; b; heads m; d_k m] (data lq))
                    (mkTensor [sk; b; heads m; d_k m] (data lk)) = Ok s;
  st_scores_shape : shape s = [sq; sk; b; heads m];
  st_masked : apply_mask s (option_map (@unsqueeze_last bool) mask) = Ok s';
  st_masked_shape : shape s' = [sq; sk; b; heads m];
  st_masked_val :
    forall i j bb hh, i < sq -> j < sk -> bb < b -> hh < heads m ->
      get 0%R s' [i; j; bb; hh] =
      if admits mask i j bb then get 0%R s [i; j; bb; hh] else sentinel;
  st_softmax : softmax_dim1 s' = Ok a;
  st_attn_shape : shape a = [sq; sk; b; heads m];
  st_attn_wf : wf a;
  st_attn_val :
    forall i j bb hh, i < sq -> j < sk -> bb < b -> hh < heads m ->
      get 0%R a [i; j; bb; hh] =
      (exp (get 0%R s' [i; j; bb; hh])
       / Rsum sk (fun j' => exp (get 0%R s' [i; j'; bb; hh])))%R;
  st_x :
    einsum_av (dropout_call (training m) (dropout m) noise a)
              (mkTensor [sk; b; heads m; d_k m] (data lv)) = Ok x;
  st_x_shape : shape x = [sq; b; heads m; d_k m];
  st_x_wf : wf x;
  st_x_val :
    forall i bb hh d, i < sq -> bb < b -> hh < heads m -> d < d_k m ->
      get 0%R x [i; bb; hh; d] =
      Rsum sk (fun j =>
        (get 0%R (dropout_call (training m) (dropout m) noise a) [i; j; bb; hh]
         * get 0%R (mkTensor [sk; b; heads m; d_k m] (data lv))
             [j; bb; hh; d])%R);
  st_forward :
    forall st,
      forward m q k v mask noise st =
      (do x' <- concat_heads x sq b; linear_call (output m) x',
       mkState (Some (dropout_call (training m) (dropout m) noise a))
               (tracker st ++ [("attn"%string, a)]))
}.

(** ** A concrete module and concrete inputs

    [heads = 2], [d_model = 4] (so [d_k = 2]), identity weights, zero output
    bias, no bias in the projections. *)

Definition eye (o i : nat) : R := if o =? i then 1%R else 0%R.

Definition zero_bias (_ : nat) : R := 0%R.

Definition example_params : Params :=
  mkParams eye zero_bias eye zero_bias eye zero_bias eye zero_bias.

Definition example_prepare : PrepareForMultiHeadAttention :=
  mkPrepare (mkLinear 4 4 eye None) 2 2.

(** The module [MultiHeadAttention(2, 4, prob, bias=False)], in training
    mode as constructed. *)
Definition example_mha (prob : R) : MultiHeadAttention :=
  mkMHA 2 2 example_prepare example_prepare example_prepare
        (mkLinear 4 4 eye (Some zero_bias)) (mkDropout prob)
        (1 / sqrt 2)%R true.

(** One position, one batch entry: the vector [[1, 0, 0, 0]]. *)
Definition one_hot : Tensor R := mkTensor [1; 1; 4] [1; 0; 0; 0]%R.

(** A mask of shape [[1; 1; 1]] that excludes the only key. *)
Definition mask_none : Tensor bool := mkTensor [1; 1; 1] [false].

Definition no_noise (_ : nat) : bool := false.

Definition state0 : State := mkState None [].

(** Two query positions against three key positions, with a mask of shape
    [[2; 3; 1]] that admits everything. *)
Definition query2 : Tensor R :=
  mkTensor [2; 1; 4] [1; 0; 0; 0;  0; 1; 0; 0]%R.

Definition keys3 : Tensor R :=
  mkTensor [3; 1; 4] [1; 0; 0; 0;  0; 1; 0; 0;  0; 0; 1; 0]%R.

Definition mask23 : Tensor bool := mkTensor [2; 3; 1] (repeat true 6).

(** A mask of shape [[1; 3; 1]], broadcast over the queries, that excludes
    the key at position 1. *)
Definition mask13 : Tensor bool := mkTensor [1; 3; 1] [true; false; true].

(** [1 / math.sqrt(d_k)] on binary64 floats, as Python evaluates it. *)
Definition scale_binary64 (d_k : Z) : float :=
  PrimFloat.div PrimFloat.one
    (PrimFloat.sqrt (PrimFloat.of_uint63 (Uint63.of_Z d_k))).

(** More concrete inputs: values at two positions, a tensor whose feature
    width is 3, a query with no position, and masks of shape [[1; 3; 1]]
    that admit every key and no key. *)
Definition values2 : Tensor R :=
  mkTensor [2; 1; 4] [1; 0; 0; 0;  0; 1; 0; 0]%R.

Definition narrow : Tensor R := mkTensor [1; 1; 3] [1; 0; 0]%R.

Definition empty_query : Tensor R := mkTensor [0; 1; 4] [].

Definition mask_all13 : Tensor bool := mkTensor [1; 3; 1] [true; true; true].

Definition mask_no13 : Tensor bool :=
  mkTensor [1; 3; 1] [false; false; false].

(** A mask of shape [[1; 2; 1]] and the mask of shape [[2; 2; 1]] that
    repeats its row. *)
Definition mask12 : Tensor bool := mkTensor [1; 2; 1] [true; false].

Definition mask22 : Tensor bool :=
  mkTensor [2; 2; 1] [true; false; true; false].

(** Two positions that hold the same vector. *)
Definition same_rows : Tensor R :=
  mkTensor [2; 1; 4] [0; 0; 1; 0;  0; 0; 1; 0]%R.

(** The factor by which dropout multiplies the entry at offset [k]. *)
Definition keep_factor (training : bool) (d : Dropout) (noise : nat -> bool)
    (k : nat) : R :=
  if training then
    if Req_dec_T (p d) 0 then 1%R
    else if Req_dec_T (p d) 1 then 0%R
         else if noise k then (/ (1 - p d))%R else 0%R
  else 1%R.

(** Draws that keep the entries at even offsets. *)
Definition even_noise (k : nat) : bool := Nat.even k.

(** A query that agrees with [query2] at its first position only. *)
Definition query2b : Tensor R :=
  mkTensor [2; 1; 4] [1; 0; 0; 0;  0; 0; 0; 1]%R.

(** ** Index arithmetic *)

Lemma numel_cons (d : nat) (ds : list nat) : numel (d :: ds) = d * numel ds.
Proof. reflexivity. Qed.

Lemma ravel_lt (sh idx : list nat) :
  in_range sh idx -> ravel sh idx < numel sh.
Proof.
  revert idx; induction sh as [|d ds IH]; intros [|i js] H; simpl in *;
    try contradiction; try lia.
  destruct H as [Hi Hr]. specialize (IH _ Hr).
  change (fold_right Nat.mul 1 ds) with (numel ds). nia.
Qed.

Lemma unravel_ravel (sh idx : list nat) :
  in_range sh idx -> unravel sh (ravel sh idx) = idx.
Proof.
  revert idx; induction sh as [|d ds IH]; intros [|i js] H; simpl in *;
    try contradiction; try reflexivity.
  destruct H as [Hi Hr]. pose proof (ravel_lt _ _ Hr) as Hlt.
  assert (Hn : numel ds <> 0) by lia.
  rewrite Nat.div_add_l by exact Hn.
  rewrite (Nat.div_small _ _ Hlt), Nat.add_0_r.
  rewrite Nat.add_comm, Nat.Div0.mod_add, (Nat.mod_small _ _ Hlt).
  now rewrite IH.
Qed.

Lemma unravel_in_range (sh : list nat) (k : nat) :
  k < numel sh -> in_range sh (unravel sh k).
Proof.
  revert k; induction sh as [|d ds IH]; intros k Hk; simpl in *; [exact I|].
  change (fold_right Nat.mul 1 ds) with (numel ds) in Hk.
  assert (Hn : numel ds <> 0) by nia.
  split.
  - apply Nat.Div0.div_lt_upper_bound. lia.
  - apply IH. now apply Nat.mod_upper_bound.
Qed.

Lemma ravel_unravel (sh : list nat) (k : nat) :
  k < numel sh -> ravel sh (unravel sh k) = k.
Proof.
  revert k; induction sh as [|d ds IH]; intros k Hk; simpl in *; [lia|].
  change (fold_right Nat.mul 1 ds) with (numel ds) in Hk.
  assert (Hn : numel ds <> 0) by nia.
  rewrite IH by now apply Nat.mod_upper_bound.
  rewrite (Nat.div_mod_eq k (numel ds)) at 3. lia.
Qed.

Lemma build_wf {A : Type} (sh : list nat) (f : list nat -> A) :
  wf (build sh f).
Proof. unfold wf, build; simpl. now rewrite length_map, length_seq. Qed.

Lemma get_build {A : Type} (dflt : A) (sh : list nat) (f : list nat -> A)
    (idx : list nat) :
  in_range sh idx -> get dflt (build sh f) idx = f idx.
Proof.
  intros H. unfold get, build; simpl.
  pose proof (ravel_lt _ _ H) as Hlt.
  rewrite (nth_indep _ dflt (f (unravel sh 0)))
    by now rewrite length_map, length_seq.
  rewrite (map_nth (fun k => f (unravel sh k)) (seq 0 (numel sh)) 0).
  rewrite seq_nth by exact Hlt. simpl. now rewrite unravel_ravel.
Qed.

Lemma build_get {A : Type} (dflt : A) (t : Tensor A) :
  wf t -> build (shape t) (get dflt t) = t.
Proof.
  destruct t as [sh d]; unfold wf, build, get; simpl; intros Hwf.
  f_equal. apply (nth_ext _ _ dflt dflt).
  - now rewrite length_map, length_seq.
  - intros n Hn. rewrite length_map, length_seq in Hn.
    rewrite (nth_indep _ dflt (nth (ravel sh (unravel sh 0)) d dflt))
      by now rewrite length_map, length_seq.
    rewrite (map_nth (fun k => nth (ravel sh (unravel sh k)) d dflt)
               (seq 0 (numel sh)) 0).
    rewrite seq_nth by exact Hn. simpl. now rewrite ravel_unravel.
Qed.

Lemma build_ext {A : Type} (sh : list nat) (f g : list nat -> A) :
  (forall idx, in_range sh idx -> f idx = g idx) -> build sh f = build sh g.
Proof.
  intros H. unfold build. f_equal. apply map_ext_in.
  intros k Hk. apply in_seq in Hk. apply H, unravel_in_range. lia.
Qed.

(** ** Broadcasting *)

Lemma bdim_refl (a : nat) : bdim a a = Some a.
Proof. unfold bdim. now rewrite Nat.eqb_refl. Qed.

Lemma bdim_1_r (a : nat) : bdim a 1 = Some a.
Proof.
  unfold bdim. destruct (a =? 1) eqn:E; [|reflexivity].
  apply Nat.eqb_eq in E. now subst.
Qed.

Lemma in_range_length (sh idx : list nat) :
  in_range sh idx -> length idx = length sh.
Proof.
  revert idx; induction sh as [|d ds IH]; intros [|i js] H; simpl in *;
    try contradiction; try reflexivity.
  f_equal. apply IH, H.
Qed.

Lemma bzip_in_range (sh idx : list nat) :
  in_range sh idx -> bzip sh idx = idx.
Proof.
  revert idx; induction sh as [|d ds IH]; intros [|i js] H; simpl in *;
    try contradiction; try reflexivity.
  destruct H as [Hi Hr]. rewrite (IH _ Hr).
  destruct (d =? 1) eqn:E; [|reflexivity].
  apply Nat.eqb_eq in E. f_equal. lia.
Qed.

Lemma bindex_in_range (sh idx : list nat) :
  in_range sh idx -> bindex sh idx = idx.
Proof.
  intros H. unfold bindex. rewrite (in_range_length _ _ H), Nat.sub_diag.
  simpl. now apply bzip_in_range.
Qed.

Lemma bget_in_range {A : Type} (dflt : A) (t : Tensor A) (idx : list nat) :
  in_range (shape t) idx -> bget dflt t idx = get dflt t idx.
Proof. intros H. unfold bget. now rewrite bindex_in_range. Qed.

(** ** Sums *)

Lemma Rsum_ext (n : nat) (f g : nat -> R) :
  (forall j, j < n -> f j = g j) -> Rsum n f = Rsum n g.
Proof.
  intros H. unfold Rsum. f_equal. apply map_ext_in.
  intros j Hj. apply in_seq in Hj. apply H. lia.
Qed.

Lemma Rsum_S (n : nat) (f : nat -> R) :
  Rsum (S n) f = (Rsum n f + f n)%R.
Proof.
  unfold Rsum. rewrite seq_S, map_app, fold_right_app. simpl.
  generalize (map f (seq 0 n)) as l. induction l as [|x l IH]; simpl.
  - lra.
  - rewrite IH. lra.
Qed.

Lemma Rsum_0 (f : nat -> R) : Rsum 0 f = 0%R.
Proof. reflexivity. Qed.

Lemma Rsum_scal (n : nat) (f : nat -> R) (c : R) :
  Rsum n (fun j => (f j * c)%R) = (Rsum n f * c)%R.
Proof.
  induction n as [|n IH]; [rewrite !Rsum_0; lra|].
  rewrite !Rsum_S, IH. lra.
Qed.

Lemma Rsum_pos (n : nat) (f : nat -> R) :
  0 < n -> (forall j, j < n -> (0 < f j)%R) -> (0 < Rsum n f)%R.
Proof.
  induction n as [|n IH]; [lia|]. intros _ H. rewrite Rsum_S.
  destruct n as [|n].
  - rewrite Rsum_0. specialize (H 0%nat ltac:(lia)). lra.
  - assert (0 < Rsum (S n) f)%R by (apply IH; [lia|intros; apply H; lia]).
    specialize (H (S n) ltac:(lia)). lra.
Qed.

Lemma Rsum_ge_term (n : nat) (f : nat -> R) (j : nat) :
  j < n -> (forall i, i < n -> (0 <= f i)%R) -> (f j <= Rsum n f)%R.
Proof.
  induction n as [|n IH]; [lia|]. intros Hj H. rewrite Rsum_S.
  assert (Hn : (0 <= Rsum n f)%R).
  { clear IH Hj. induction n as [|n IHn]; [rewrite Rsum_0; lra|].
    rewrite Rsum_S.
    assert (0 <= Rsum n f)%R by (apply IHn; intros; apply H; lia).
    specialize (H n ltac:(lia)). lra. }
  destruct (Nat.eq_dec j n) as [->|Hne].
  - lra.
  - assert (f j <= Rsum n f)%R by (apply IH; [lia|intros; apply H; lia]).
    specialize (H n ltac:(lia)). lra.
Qed.

(** ** The torch operations on tensors of the expected shapes *)

Lemma get_mul_scalar (t : Tensor R) (c : R) (idx : list nat) :
  get 0%R (mul_scalar t c) idx = (get 0%R t idx * c)%R.
Proof.
  unfold get, mul_scalar; simpl.
  rewrite <- (map_nth (fun x => (x * c)%R)). f_equal. lra.
Qed.

Lemma linear_call_ok (l : Linear) (x : Tensor R) (s b c : nat) :
  shape x = [s; b; c] -> c = in_features l ->
  exists y, linear_call l x = Ok y /\ shape y = [s; b; out_features l] /\ wf y.
Proof.
  intros Hs Hc. unfold linear_call. rewrite Hs, Hc, Nat.eqb_refl.
  eexists; split; [reflexivity|]. split; [reflexivity|apply build_wf].
Qed.

Lemma linear_call_mismatch (l : Linear) (x : Tensor R) (s b c : nat) :
  shape x = [s; b; c] -> c <> in_features l ->
  linear_call l x = Raise RuntimeError.
Proof.
  intros Hs Hc. unfold linear_call. rewrite Hs.
  apply Nat.eqb_neq in Hc. now rewrite Hc.
Qed.

Lemma Prepare_call_ok (pm : PrepareForMultiHeadAttention) (x : Tensor R)
    (s b dm h dk : nat) :
  prepare_ok pm dm h dk -> shape x = [s; b; dm] ->
  exists y, linear_call (linear pm) x = Ok y /\
            shape y = [s; b; h * dk] /\ wf y /\
            Prepare_call pm x = Ok (mkTensor [s; b; h; dk] (data y)).
Proof.
  intros (Hin & Hout & Hh & Hd) Hs.
  destruct (linear_call_ok (linear pm) x Hs (eq_sym Hin)) as (y & Hy & Hsy & Hwf).
  exists y. rewrite Hout in Hsy. repeat split; try assumption.
  unfold Prepare_call. rewrite Hs, Hy. simpl.
  unfold split_heads, view. rewrite Hsy, Hh, Hd.
  replace (numel [s; b; h; dk] =? numel [s; b; h * dk]) with true;
    [reflexivity|].
  symmetry. apply Nat.eqb_eq. simpl. lia.
Qed.

Lemma in_range4 (a b c d i j k l : nat) :
  i < a -> j < b -> k < c -> l < d -> in_range [a; b; c; d] [i; j; k; l].
Proof. simpl; tauto. Qed.

Lemma in_range3 (a b c i j k : nat) :
  i < a -> j < b -> k < c -> in_range [a; b; c] [i; j; k].
Proof. simpl; tauto. Qed.

Lemma scaled_scores_ok (m : MultiHeadAttention) (q k : Tensor R)
    (sq sk b h dk : nat) :
  shape q = [sq; b; h; dk] -> shape k = [sk; b; h; dk] ->
  exists s, scaled_scores m q k = Ok s /\ shape s = [sq; sk; b; h] /\
    forall i j bb hh, i < sq -> j < sk -> bb < b -> hh < h ->
      get 0%R s [i; j; bb; hh] =
      (Rsum dk (fun d => get 0%R q [i; bb; hh; d] * get 0%R k [j; bb; hh; d])
       * scale m)%R.
Proof.
  intros Hq Hk. unfold scaled_scores, get_scores, einsum_qk.
  rewrite Hq, Hk, !bdim_refl. simpl rbind.
  eexists; split; [reflexivity|]. split; [reflexivity|].
  intros i j bb hh Hi Hj Hb Hh. rewrite get_mul_scalar.
  rewrite get_build by now apply in_range4.
  unfold ix; simpl. f_equal. apply Rsum_ext. intros d Hd.
  rewrite !bget_in_range; [reflexivity| |].
  - rewrite Hk. now apply in_range4.
  - rewrite Hq. now apply in_range4.
Qed.

Lemma check_mask_ok (mk : Tensor bool) (mq sk b : nat) :
  shape mk = [mq; sk; b] -> mq = 1 \/ mq = sk ->
  check_mask mk = Ok (unsqueeze_last mk).
Proof.
  intros Hs [->| ->]; unfold check_mask; rewrite Hs.
  - reflexivity.
  - rewrite Nat.eqb_refl. now destruct (sk =? 1).
Qed.

Lemma apply_mask_some (s : Tensor R) (mk : Tensor bool) (sq sk b h mq : nat) :
  shape s = [sq; sk; b; h] -> shape mk = [mq; sk; b] ->
  mq = 1 \/ mq = sq ->
  exists s', apply_mask s (Some (unsqueeze_last mk)) = Ok s' /\
    shape s' = [sq; sk; b; h] /\
    forall i j bb hh, i < sq -> j < sk -> bb < b -> hh < h ->
      get 0%R s' [i; j; bb; hh] =
      if mask_at mk i j bb then get 0%R s [i; j; bb; hh] else sentinel.
Proof.
  intros Hs Hm Hmq. unfold apply_mask, masked_fill.
  assert (Hb : broadcast_shapes (shape s) (shape (eq0 (unsqueeze_last mk)))
               = Some [sq; sk; b; h]).
  { rewrite Hs. unfold eq0, unsqueeze_last; simpl. rewrite Hm.
    unfold broadcast_shapes; simpl.
    rewrite bdim_1_r, !bdim_refl.
    destruct Hmq as [->| ->]; [rewrite bdim_1_r|rewrite bdim_refl];
      reflexivity. }
  rewrite Hb. eexists; split; [reflexivity|]. split; [reflexivity|].
  intros i j bb hh Hi Hj Hbb Hh.
  rewrite get_build by now apply in_range4.
  rewrite (bget_in_range 0%R s) by (rewrite Hs; now apply in_range4).
  assert (Hg : bget false (eq0 (unsqueeze_last mk)) [i; j; bb; hh]
               = negb (mask_at mk i j bb)).
  { unfold bget, mask_at, get, eq0, unsqueeze_last, bindex; simpl.
    rewrite Hm; simpl.
    rewrite <- (map_nth negb). simpl.
    f_equal. f_equal.
    assert (Ej : (if sk =? 1 then 0 else j) = j).
    { destruct (sk =? 1) eqn:E; [apply Nat.eqb_eq in E; lia|reflexivity]. }
    assert (Eb : (if b =? 1 then 0 else bb) = bb).
    { destruct (b =? 1) eqn:E; [apply Nat.eqb_eq in E; lia|reflexivity]. }
    rewrite Ej, Eb. lia. }
  rewrite Hg. now destruct (mask_at mk i j bb).
Qed.

Lemma softmax_dim1_ok (s : Tensor R) (sq sk b h : nat) :
  shape s = [sq; sk; b; h] ->
  exists a, softmax_dim1 s = Ok a /\ shape a = [sq; sk; b; h] /\ wf a /\
    forall i j bb hh, i < sq -> j < sk -> bb < b -> hh < h ->
      get 0%R a [i; j; bb; hh] =
      (exp (get 0%R s [i; j; bb; hh])
       / Rsum sk (fun j' => exp (get 0%R s [i; j'; bb; hh])))%R.
Proof.
  intros Hs. unfold softmax_dim1. rewrite Hs.
  eexists; split; [reflexivity|]. split; [reflexivity|].
  split; [apply build_wf|].
  intros i j bb hh Hi Hj Hb Hh.
  now rewrite get_build by now apply in_range4.
Qed.

Lemma attention_weights_ok (m : MultiHeadAttention) (q k : Tensor R)
    (mask : option (Tensor bool)) (sq sk b h dk : nat) :
  shape q = [sq; b; h; dk] -> shape k = [sk; b; h; dk] ->
  mask_ok mask sq sk b ->
  exists s s' a, scaled_scores m q k = Ok s /\ shape s = [sq; sk; b; h] /\
    apply_mask s (option_map (@unsqueeze_last bool) mask) = Ok s' /\
    shape s' = [sq; sk; b; h] /\
    (forall i j bb hh, i < sq -> j < sk -> bb < b -> hh < h ->
       get 0%R s' [i; j; bb; hh] =
       if admits mask i j bb then get 0%R s [i; j; bb; hh] else sentinel) /\
    softmax_dim1 s' = Ok a /\
    attention_weights m q k (option_map (@unsqueeze_last bool) mask) = Ok a.
Proof.
  intros Hq Hk Hm.
  destruct (scaled_scores_ok m q k Hq Hk) as (s & Hs & Hss & _).
  exists s. unfold attention_weights. rewrite Hs. simpl rbind.
  destruct mask as [mk|]; simpl option_map.
  - destruct Hm as (mq & Hmk & Hmq).
    assert (Hmq' : mq = 1 \/ mq = sq) by tauto.
    destruct (apply_mask_some s mk Hss Hmk Hmq') as (s' & Hs' & Hss' & Hv).
    rewrite Hs'. simpl rbind.
    destruct (softmax_dim1_ok s' Hss') as (a & Ha & _).
    exists s', a. repeat split; assumption.
  - simpl apply_mask. simpl rbind.
    destruct (softmax_dim1_ok s Hss) as (a & Ha & _).
    exists s, a. repeat split; try assumption; reflexivity.
Qed.

Lemma dropout_call_shape (tr : bool) (d : Dropout) (noise : nat -> bool)
    (x : Tensor R) :
  shape (dropout_call tr d noise x) = shape x.
Proof.
  unfold dropout_call. destruct tr; [|reflexivity].
  destruct (Req_dec_T (p d) 0); [reflexivity|].
  now destruct (Req_dec_T (p d) 1).
Qed.

Lemma dropout_call_disabled (m : MultiHeadAttention) (noise : nat -> bool)
    (x : Tensor R) :
  dropout_disabled m -> dropout_call (training m) (dropout m) noise x = x.
Proof.
  intros [H|H]; unfold dropout_call.
  - now rewrite H.
  - destruct (training m); [|reflexivity].
    destruct (Req_dec_T (p (dropout m)) 0); [reflexivity|contradiction].
Qed.

Lemma einsum_av_ok (a v : Tensor R) (sq sk b h dk : nat) :
  shape a = [sq; sk; b; h] -> shape v = [sk; b; h; dk] ->
  exists x, einsum_av a v = Ok x /\ shape x = [sq; b; h; dk] /\ wf x /\
    forall i bb hh d, i < sq -> bb < b -> hh < h -> d < dk ->
      get 0%R x [i; bb; hh; d] =
      Rsum sk (fun j =>
        (get 0%R a [i; j; bb; hh] * get 0%R v [j; bb; hh; d])%R).
Proof.
  intros Ha Hv. unfold einsum_av. rewrite Ha, Hv, !bdim_refl.
  eexists; split; [reflexivity|]. split; [reflexivity|].
  split; [apply build_wf|].
  intros i bb hh d Hi Hb Hh Hd.
  rewrite get_build by now apply in_range4.
  unfold ix; simpl. apply Rsum_ext. intros j Hj.
  rewrite !bget_in_range; [reflexivity| |].
  - rewrite Hv. now apply in_range4.
  - rewrite Ha. now apply in_range4.
Qed.

Lemma concat_heads_ok (x : Tensor R) (sq b h dk : nat) :
  shape x = [sq; b; h; dk] -> 0 < sq -> 0 < b ->
  concat_heads x sq b = Ok (mkTensor [sq; b; h * dk] (data x)).
Proof.
  intros Hx Hsq Hb. unfold concat_heads, reshape_infer_last. rewrite Hx.
  assert (Hn : sq * b <> 0) by nia.
  assert (He : numel [sq; b; h; dk] = h * dk * (sq * b)) by (simpl; lia).
  rewrite He. apply Nat.eqb_neq in Hn as Hn'. rewrite Hn'.
  rewrite Nat.Div0.mod_mul, Nat.div_mul by exact Hn. reflexivity.
Qed.

Lemma concat_heads_empty (x : Tensor R) (sq b : nat) :
  sq * b = 0 -> concat_heads x sq b = Raise RuntimeError.
Proof.
  intros H. unfold concat_heads, reshape_infer_last. now rewrite H.
Qed.

(** The call on inputs of the documented shapes, up to the head
    concatenation: every earlier step succeeds, the softmax output [a] is
    emitted, its image under dropout is retained, and the result is that of
    the last two steps. *)
Lemma forward_steps (m : MultiHeadAttention) (q k v : Tensor R)
    (mask : option (Tensor bool)) (noise : nat -> bool)
    (sq sk b dm : nat) :
  well_configured m dm -> shapes_ok q k v sq sk b dm ->
  mask_ok mask sq sk b ->
  exists lq lk lv s s' a x, steps m q k v mask noise sq sk b lq lk lv s s' a x.
Proof.
  intros (Hpq & Hpk & Hpv & Hoi & Hoo & Hh & Hd) (Hq & Hk & Hv) Hm.
  destruct (Prepare_call_ok q Hpq Hq) as (lq & Hlq & Hslq & Hwq & Hcq).
  destruct (Prepare_call_ok k Hpk Hk) as (lk & Hlk & Hslk & Hwk & Hck).
  destruct (Prepare_call_ok v Hpv Hv) as (lv & Hlv & Hslv & Hwv & Hcv).
  set (qh := mkTensor [sq; b; heads m; d_k m] (data lq)) in *.
  set (kh := mkTensor [sk; b; heads m; d_k m] (data lk)) in *.
  set (vh := mkTensor [sk; b; heads m; d_k m] (data lv)) in *.
  destruct (@attention_weights_ok m qh kh mask sq sk b (heads m) (d_k m)
              eq_refl eq_refl Hm)
    as (s & s' & a & Hs & Hss & Hs' & Hss' & Hvs' & Hsm & Ha).
  destruct (softmax_dim1_ok s' Hss') as (a0 & Ha0 & Hsa & Hwa & Hva).
  rewrite Hsm in Ha0. inversion Ha0; subst a0; clear Ha0.
  set (a' := dropout_call (training m) (dropout m) noise a).
  assert (Hsa' : shape a' = [sq; sk; b; heads m])
    by (unfold a'; now rewrite dropout_call_shape).
  destruct (@einsum_av_ok a' vh sq sk b (heads m) (d_k m) Hsa' eq_refl)
    as (x & Hx & Hsx & Hwx & Hvx).
  exists lq, lk, lv, s, s', a, x.
  constructor; try assumption.
  intros st. unfold forward. rewrite Hq.
  assert (Hchk : match mask with
                 | Some mk => do mk' <- check_mask mk; Ok (Some mk')
                 | None => Ok None
                 end = Ok (option_map (@unsqueeze_last bool) mask)).
  { destruct mask as [mk|]; [|reflexivity].
    destruct Hm as (mq & Hmk & Hmq).
    rewrite (check_mask_ok mk Hmk) by (destruct Hmq as [?|[? ?]]; lia).
    reflexivity. }
  unfold mbind, lift, tracker_debug, set_attn.
  rewrite Hchk, Hcq, Hck, Hcv. fold qh kh vh. rewrite Ha.
  fold a'. rewrite Hx. simpl.
  destruct (concat_heads x sq b); reflexivity.
Qed.

(** ** Construction *)

Lemma init_ok (h dm : Z) (prob : R) (bias : bool) (w : Params) :
  (0 < h)%Z -> (h <= dm)%Z -> (0 <= prob <= 1)%R ->
  init h dm prob bias w =
  Ok (mkMHA (Z.to_nat (dm / h)) (Z.to_nat h)
        (mkPrepare (mkLinear (Z.to_nat dm) (Z.to_nat (h * (dm / h)))
                      (w_query w) (if bias then Some (b_query w) else None))
                   (Z.to_nat h) (Z.to_nat (dm / h)))
        (mkPrepare (mkLinear (Z.to_nat dm) (Z.to_nat (h * (dm / h)))
                      (w_key w) (if bias then Some (b_key w) else None))
                   (Z.to_nat h) (Z.to_nat (dm / h)))
        (mkPrepare (mkLinear (Z.to_nat dm) (Z.to_nat (h * (dm / h)))
                      (w_value w) (if bias then Some (b_value w) else None))
                   (Z.to_nat h) (Z.to_nat (dm / h)))
        (mkLinear (Z.to_nat dm) (Z.to_nat dm) (w_output w)
                  (Some (b_output w)))
        (mkDropout prob) (1 / sqrt (IZR (dm / h)))%R true).
Proof.
  intros Hh Hdm Hp.
  assert (Hdk : (0 < dm / h)%Z) by (apply Z.div_str_pos; lia).
  unfold init, Prepare_init, nn_Linear, nn_Dropout, inv_sqrt.
  replace (h =? 0)%Z with false by (symmetry; apply Z.eqb_neq; lia).
  replace (dm <? 0)%Z with false by (symmetry; apply Z.ltb_ge; lia).
  replace (h * (dm / h) <? 0)%Z with false
    by (symmetry; apply Z.ltb_ge; nia).
  replace (dm / h <? 0)%Z with false by (symmetry; apply Z.ltb_ge; lia).
  replace (dm / h =? 0)%Z with false by (symmetry; apply Z.eqb_neq; lia).
  simpl.
  destruct (Rlt_dec prob 0); [lra|].
  destruct (Rlt_dec 1 prob); [lra|].
  reflexivity.
Qed.

Lemma init_Ok_inv (h dm : Z) (prob : R) (bias : bool) (w : Params)
    (m : MultiHeadAttention) :
  init h dm prob bias w = Ok m ->
  (0 < h)%Z /\ (h <= dm)%Z /\ (0 <= prob <= 1)%R.
Proof.
  unfold init, Prepare_init, nn_Linear, nn_Dropout, inv_sqrt.
  destruct (h =? 0)%Z eqn:E0; [discriminate|].
  destruct (dm <? 0)%Z eqn:E1; simpl; [discriminate|].
  destruct (h * (dm / h) <? 0)%Z eqn:E2; simpl; [discriminate|].
  destruct (Rlt_dec prob 0); simpl; [discriminate|].
  destruct (Rlt_dec 1 prob); simpl; [discriminate|].
  destruct (dm / h <? 0)%Z eqn:E3; simpl; [discriminate|].
  destruct (dm / h =? 0)%Z eqn:E4; simpl; [discriminate|].
  intros _.
  apply Z.eqb_neq in E0, E4. apply Z.ltb_ge in E1, E2, E3.
  assert (Hdk : (0 < dm / h)%Z) by lia.
  assert (Hh : (0 < h)%Z).
  { destruct (Z.lt_trichotomy h 0) as [Hn|[Hz|Hp]]; [|lia|exact Hp].
    exfalso. nia. }
  split; [exact Hh|]. split; [|lra].
  pose proof (Z.mul_div_le dm h Hh). nia.
Qed.

Lemma init_well_configured (h dm : Z) (prob : R) (bias : bool) (w : Params)
    (m : MultiHeadAttention) :
  init h dm prob bias w = Ok m ->
  well_configured m (Z.to_nat dm) /\
  heads m = Z.to_nat h /\ d_k m = Z.to_nat (dm / h) /\
  scale m = (1 / sqrt (IZR (dm / h)))%R /\
  p (dropout m) = prob /\ training m = true.
Proof.
  intros H. destruct (init_Ok_inv _ _ _ _ _ H) as (Hh & Hdm & Hp).
  rewrite (init_ok bias w Hh Hdm Hp) in H. inversion H; subst; clear H.
  assert (Hdk : (0 < dm / h)%Z) by (apply Z.div_str_pos; lia).
  unfold well_configured, prepare_ok; simpl.
  rewrite Z2Nat.inj_mul by lia.
  repeat split; lia.
Qed.

Lemma eval_well_configured (m : MultiHeadAttention) (dm : nat) :
  well_configured m dm -> well_configured (eval m) dm.
Proof. exact (fun H => H). Qed.

Lemma example_init (prob : R) :
  (0 <= prob <= 1)%R ->
  init 2 4 prob false example_params = Ok (example_mha prob).
Proof.
  intros Hp. rewrite init_ok by (try lia; exact Hp). reflexivity.
Qed.

Lemma example_well_configured (prob : R) :
  well_configured (example_mha prob) 4.
Proof. unfold well_configured, prepare_ok; simpl. repeat split; lia. Qed.

Lemma final_steps_ok (o : Linear) (x : Tensor R) (sq b h dk : nat) :
  shape x = [sq; b; h; dk] -> h * dk = in_features o -> 0 < sq -> 0 < b ->
  exists out,
    (do x' <- concat_heads x sq b; linear_call o x') = Ok out /\
    linear_call o (mkTensor [sq; b; h * dk] (data x)) = Ok out /\
    shape out = [sq; b; out_features o].
Proof.
  intros Hx Hc Hsq Hb. rewrite (concat_heads_ok x Hx Hsq Hb). simpl rbind.
  destruct (@linear_call_ok o (mkTensor [sq; b; h * dk] (data x))
              sq b (h * dk) eq_refl Hc) as (out & Ho & Hso & _).
  exists out. auto.
Qed.

(** ** C1: the mask assertion *)

(** C1, as stated, fails: with two query positions and three key positions a
    mask of shape [[2; 3; 1]] has [mask_q = seq_len_q], and the call raises
    [AssertionError]. *)
Lemma mask_check_counterexample :
  hd 0 (shape mask23) = hd 0 (shape query2) /\
  forward (example_mha 0) query2 keys3 keys3 (Some mask23) no_noise state0
  = (Raise AssertionError, state0).
Proof. split; reflexivity. Qed.

(** C1, amended: when a mask is supplied, the call checks at entry that
    [mask.shape[0]] is 1 or equals [mask.shape[1]], the mask's own key
    dimension; a mask that passes is unsqueezed, and one that does not makes
    the call raise [AssertionError] at once, before any projection, emission
    or assignment to [self.attn]. *)
Theorem mask_validation (m : MultiHeadAttention) (q k v : Tensor R)
    (mk : Tensor bool) (noise : nat -> bool) (st : State)
    (sq b c m0 m1 : nat) (rest : list nat) :
  shape q = [sq; b; c] -> shape mk = m0 :: m1 :: rest ->
  (m0 = 1 \/ m0 = m1 -> check_mask mk = Ok (unsqueeze_last mk)) /\
  (~ (m0 = 1 \/ m0 = m1) ->
   forward m q k v (Some mk) noise st = (Raise AssertionError, st)).
Proof.
  intros Hq Hm. split.
  - intros [->| ->]; unfold check_mask; rewrite Hm.
    + reflexivity.
    + rewrite Nat.eqb_refl. now destruct (m1 =? 1).
  - intros Hn. unfold forward. rewrite Hq.
    unfold mbind, lift, check_mask. rewrite Hm.
    destruct (m0 =? 1) eqn:E1; [apply Nat.eqb_eq in E1; tauto|].
    destruct (m0 =? m1) eqn:E2; [apply Nat.eqb_eq in E2; tauto|].
    reflexivity.
Qed.

Lemma mask_validation_witness :
  (1 = 1 \/ 1 = 1 -> check_mask mask_none = Ok (unsqueeze_last mask_none)) /\
  (~ (2 = 1 \/ 2 = 3) ->
   forward (example_mha 0) query2 keys3 keys3 (Some mask23) no_noise state0
   = (Raise AssertionError, state0)).
Proof.
  split.
  - apply (@mask_validation (example_mha 0) one_hot one_hot one_hot mask_none
             no_noise state0 1 1 4 1 1 [1]); reflexivity.
  - apply (@mask_validation (example_mha 0) query2 keys3 keys3 mask23
             no_noise state0 2 1 4 2 3 [1]); reflexivity.
Defined.

(** ** C2: construction with [d_model] not divisible by [heads] *)

(** C2, as stated, fails: [MultiHeadAttention(3, 8)] is constructed, with
    [d_k = 2] and [3 * 2 <> 8]. *)
Lemma init_indivisible_counterexample :
  exists m, init 3 8 (1 / 10) true example_params = Ok m /\
            (3 * (8 / 3) <> 8)%Z.
Proof.
  eexists. split.
  - apply init_ok; [lia|lia|lra].
  - intros H. vm_compute in H. discriminate.
Qed.

(** C2, amended: for [1 <= heads <= d_model], a probability in [[0, 1]] and
    [heads * d_k <> d_model] with [d_k = d_model // heads], construction
    succeeds; the mismatch then makes every call on inputs of the documented
    shapes raise [RuntimeError]. *)
Theorem init_indivisible (h dm : Z) (prob : R) (bias : bool) (w : Params) :
  (0 < h)%Z -> (h <= dm)%Z -> (0 <= prob <= 1)%R ->
  (h * (dm / h) <> dm)%Z ->
  exists m, init h dm prob bias w = Ok m /\
    forall (q k v : Tensor R) (mask : option (Tensor bool))
           (noise : nat -> bool) (st : State) (sq sk b : nat),
      shapes_ok q k v sq sk b (Z.to_nat dm) -> mask_ok mask sq sk b ->
      fst (forward m q k v mask noise st) = Raise RuntimeError.
Proof.
  intros Hh Hdm Hp Hne.
  eexists. split; [apply (init_ok bias w Hh Hdm Hp)|].
  set (m := mkMHA _ _ _ _ _ _ _ _ _).
  assert (Hm : init h dm prob bias w = Ok m)
    by apply (init_ok bias w Hh Hdm Hp).
  clearbody m.
  destruct (init_well_configured _ _ _ _ _ Hm) as (Hwc & Hhm & Hdkm & _).
  intros q k v mask noise st sq sk b Hsh Hmk.
  destruct (forward_steps mask noise Hwc Hsh Hmk)
    as (lq & lk & lv & s & s' & a & x & T).
  pose proof (st_x_shape T) as Hsx.
  rewrite (st_forward T). simpl fst.
  destruct (Nat.eq_dec (sq * b) 0) as [Hz|Hnz].
  - now rewrite concat_heads_empty.
  - rewrite (concat_heads_ok x Hsx) by nia. simpl rbind.
    apply linear_call_mismatch with (s := sq) (b := b)
                                    (c := heads m * d_k m); [reflexivity|].
    destruct Hwc as (_ & _ & _ & Hin & _). rewrite Hin, Hhm, Hdkm.
    assert (Hdk : (0 < dm / h)%Z) by (apply Z.div_str_pos; lia).
    rewrite <- Z2Nat.inj_mul by lia. intros Heq.
    apply Z2Nat.inj in Heq; nia.
Qed.

Lemma init_indivisible_witness :
  exists m, init 3 8 (1 / 10) true example_params = Ok m /\
    forall (q k v : Tensor R) (mask : option (Tensor bool))
           (noise : nat -> bool) (st : State) (sq sk b : nat),
      shapes_ok q k v sq sk b (Z.to_nat 8) -> mask_ok mask sq sk b ->
      fst (forward m q k v mask noise st) = Raise RuntimeError.
Proof.
  apply init_indivisible.
  - lia.
  - lia.
  - lra.
  - intros H. vm_compute in H. discriminate.
Defined.

(** A call on inputs of the documented shapes returns. *)
Lemma output_shape_aux (m : MultiHeadAttention) (q k v : Tensor R)
    (mask : option (Tensor bool)) (noise : nat -> bool) (st : State)
    (sq sk b dm : nat) :
  well_configured m dm -> heads m * d_k m = dm ->
  shapes_ok q k v sq sk b dm -> mask_ok mask sq sk b ->
  0 < sq -> 0 < b ->
  exists out st', forward m q k v mask noise st = (Ok out, st').
Proof.
  intros Hwc Hdm Hsh Hmk Hsq Hb.
  destruct (forward_steps mask noise Hwc Hsh Hmk)
    as (lq & lk & lv & s & s' & a & x & T).
  destruct Hwc as (_ & _ & _ & Hin & Hout & _).
  destruct (@final_steps_ok (output m) x sq b (heads m) (d_k m)
              (st_x_shape T) ltac:(lia) Hsq Hb) as (out & Ho & _ & _).
  exists out. eexists. rewrite (st_forward T), Ho. reflexivity.
Qed.

(** ** C5: the shape of the output *)

(** C5: on a module with [heads * d_k = d_model], for query, key and value of
    shapes [[seq_len_q; batch_size; d_model]] and
    [[seq_len_k; batch_size; d_model]] with at least one query position and
    one batch entry, and no mask or an accepted one, the call returns a
    tensor of shape [[seq_len_q; batch_size; d_model]]. *)
Theorem output_shape (m : MultiHeadAttention) (q k v : Tensor R)
    (mask : option (Tensor bool)) (noise : nat -> bool) (st : State)
    (sq sk b dm : nat) :
  well_configured m dm -> heads m * d_k m = dm ->
  shapes_ok q k v sq sk b dm -> mask_ok mask sq sk b ->
  0 < sq -> 0 < b ->
  exists out st', forward m q k v mask noise st = (Ok out, st') /\
                  shape out = [sq; b; dm].
Proof.
  intros Hwc Hdm Hsh Hmk Hsq Hb.
  destruct (forward_steps mask noise Hwc Hsh Hmk)
    as (lq & lk & lv & s & s' & a & x & T).
  destruct Hwc as (_ & _ & _ & Hin & Hout & _).
  destruct (@final_steps_ok (output m) x sq b (heads m) (d_k m)
              (st_x_shape T) ltac:(lia) Hsq Hb) as (out & Ho & _ & Hso).
  exists out. eexists. rewrite (st_forward T), Ho. split; [reflexivity|].
  now rewrite Hso, Hout.
Qed.

Lemma output_shape_witness :
  exists out st',
    forward (example_mha 0) query2 keys3 keys3 None no_noise state0
    = (Ok out, st') /\ shape out = [2; 1; 4].
Proof.
  apply (@output_shape (example_mha 0) query2 keys3 keys3 None no_noise
           state0 2 3 1 4).
  - apply example_well_configured.
  - reflexivity.
  - repeat split.
  - exact I.
  - lia.
  - lia.
Defined.

(** ** C7: head split followed by head concatenation *)

(** C7: for a tensor [x] of shape [[seq_len; batch_size; heads * d_k]] and
    any position [(i, bb)] of it, the head split is a view whose entry
    [(i, bb, hh, d)] is entry [(i, bb, hh * d_k + d)] of [x] (the head index
    varies slower), and the head concatenation of that view is [x] again. *)
Theorem head_split_concat_round_trip (x : Tensor R)
    (s b h dk i bb : nat) :
  shape x = [s; b; h * dk] -> i < s -> bb < b ->
  exists y, split_heads x s b h dk = Ok y /\
    shape y = [s; b; h; dk] /\
    (forall hh d, hh < h -> d < dk ->
       get 0%R y [i; bb; hh; d] = get 0%R x [i; bb; hh * dk + d]) /\
    concat_heads y s b = Ok x.
Proof.
  intros Hx Hi Hb. destruct x as [sh dat]; simpl in Hx; subst sh.
  exists (mkTensor [s; b; h; dk] dat).
  split; [|split; [reflexivity|split]].
  - unfold split_heads, view; simpl shape.
    replace (numel [s; b; h; dk] =? numel [s; b; h * dk]) with true;
      [reflexivity|].
    symmetry. apply Nat.eqb_eq. simpl. lia.
  - intros hh d Hh Hd. unfold get; simpl. f_equal. lia.
  - now rewrite (@concat_heads_ok (mkTensor [s; b; h; dk] dat) s b h dk
                   eq_refl) by lia.
Qed.

Lemma head_split_concat_round_trip_witness :
  exists y, split_heads query2 2 1 2 2 = Ok y /\
    shape y = [2; 1; 2; 2] /\
    (forall hh d, hh < 2 -> d < 2 ->
       get 0%R y [1; 0; hh; d] = get 0%R query2 [1; 0; hh * 2 + d]) /\
    concat_heads y 2 1 = Ok query2.
Proof.
  apply (@head_split_concat_round_trip query2 2 1 2 2 1 0).
  - reflexivity.
  - lia.
  - lia.
Defined.

(** ** C9: the scale factor *)

(** C9: a constructed module has [d_k = d_model // heads] and
    [scale = 1 / sqrt d_k]; every score is the inner product of the query and
    key vectors multiplied by that factor; when [d_k = 64] the scale is
    0.125, as a real number and as the binary64 value Python computes. *)
Theorem scale_factor (h dm : Z) (prob : R) (bias : bool) (w : Params)
    (m : MultiHeadAttention) :
  init h dm prob bias w = Ok m ->
  d_k m = Z.to_nat (dm / h) /\
  scale m = (1 / sqrt (IZR (dm / h)))%R /\
  (forall (qh kh : Tensor R) (sq sk b hd dk : nat),
     shape qh = [sq; b; hd; dk] -> shape kh = [sk; b; hd; dk] ->
     exists s, scaled_scores m qh kh = Ok s /\
       forall i j bb hh, i < sq -> j < sk -> bb < b -> hh < hd ->
         get 0%R s [i; j; bb; hh] =
         (Rsum dk (fun d =>
            get 0%R qh [i; bb; hh; d] * get 0%R kh [j; bb; hh; d])
          * (1 / sqrt (IZR (dm / h))))%R) /\
  ((dm / h = 64)%Z ->
   scale m = 0.125%R /\ scale_binary64 (dm / h) = 0.125%float).
Proof.
  intros H.
  destruct (init_well_configured _ _ _ _ _ H) as (_ & _ & Hdk & Hsc & _).
  split; [exact Hdk|]. split; [exact Hsc|]. split.
  - intros qh kh sq sk b hd dk Hq Hk.
    destruct (scaled_scores_ok m qh kh Hq Hk) as (s & Hs & _ & Hv).
    exists s. split; [exact Hs|]. intros i j bb hh Hi Hj Hb Hh.
    rewrite Hv by assumption. now rewrite Hsc.
  - intros E. rewrite Hsc, E. split.
    + replace 64%R with (8 * 8)%R by lra. rewrite sqrt_square by lra. lra.
    + vm_compute. reflexivity.
Qed.

Lemma scale_factor_witness :
  exists m, init 8 512 (1 / 10) true example_params = Ok m /\
    d_k m = 64 /\ scale m = 0.125%R.
Proof.
  eexists. split; [apply init_ok; [lia|lia|lra]|].
  match goal with
  | |- d_k ?m = _ /\ _ =>
      destruct (@scale_factor 8 512 (1 / 10) true example_params m)
        as (Hd & _ & _ & H64)
  end.
  - apply init_ok; [lia|lia|lra].
  - split; [exact Hd|]. apply H64. reflexivity.
Defined.

(** ** C8: determinism with dropout disabled *)

(** C8: with dropout disabled (evaluation mode, or probability zero) the
    call does not depend on the random draws and its output does not depend
    on the retained state: two calls with the same module, inputs and mask
    return the same output or raise the same exception. *)
Theorem forward_deterministic (m : MultiHeadAttention) (q k v : Tensor R)
    (mask : option (Tensor bool)) (n1 n2 : nat -> bool) (s1 s2 : State) :
  dropout_disabled m ->
  forward m q k v mask n1 s1 = forward m q k v mask n2 s1 /\
  fst (forward m q k v mask n1 s1) = fst (forward m q k v mask n2 s2).
Proof.
  intros Hd. unfold forward.
  destruct (shape q) as [|sq [|b [|c [|? ?]]]]; try (split; reflexivity).
  unfold mbind, lift, tracker_debug, set_attn.
  destruct (match mask with
            | Some mk => do mk' <- check_mask mk; Ok (Some mk')
            | None => Ok None
            end) as [mask'|e]; [|split; reflexivity].
  destruct (Prepare_call (query m) q) as [qh|e]; [|split; reflexivity].
  destruct (Prepare_call (key m) k) as [kh|e]; [|split; reflexivity].
  destruct (Prepare_call (value m) v) as [vh|e]; [|split; reflexivity].
  destruct (attention_weights m qh kh mask') as [a|e]; [|split; reflexivity].
  rewrite !(dropout_call_disabled _ _ Hd).
  destruct (einsum_av a vh) as [x|e]; [|split; reflexivity].
  destruct (concat_heads x sq b) as [x'|e]; split; reflexivity.
Qed.

Lemma forward_deterministic_witness :
  forward (eval (example_mha (1 / 2))) query2 keys3 keys3 None
          no_noise state0
  = forward (eval (example_mha (1 / 2))) query2 keys3 keys3 None
            (fun _ => true) state0 /\
  fst (forward (eval (example_mha (1 / 2))) query2 keys3 keys3 None
         no_noise state0)
  = fst (forward (eval (example_mha (1 / 2))) query2 keys3 keys3 None
           (fun _ => true) (mkState (Some one_hot) [])).
Proof.
  apply forward_deterministic. left. reflexivity.
Defined.

(** ** Values of the attention weights *)

Section Weights.
Variables (m : MultiHeadAttention) (q k v : Tensor R).
Variables (mask : option (Tensor bool)) (noise : nat -> bool).
Variables (sq sk b : nat) (lq lk lv s s' a x : Tensor R).
Hypothesis T : steps m q k v mask noise sq sk b lq lk lv s s' a x.

Lemma normaliser_pos (i bb hh : nat) :
  0 < sk -> (0 < Rsum sk (fun j => exp (get 0%R s' [i; j; bb; hh])))%R.
Proof. intros Hsk. apply Rsum_pos; [exact Hsk|]. intros; apply exp_pos. Qed.

Lemma weight_pos (i j bb hh : nat) :
  i < sq -> j < sk -> bb < b -> hh < heads m ->
  (0 < get 0%R a [i; j; bb; hh])%R.
Proof.
  intros Hi Hj Hb Hh. rewrite (st_attn_val T) by assumption.
  apply Rdiv_lt_0_compat; [apply exp_pos|].
  apply normaliser_pos. lia.
Qed.

Lemma weights_sum (i bb hh : nat) :
  i < sq -> 0 < sk -> bb < b -> hh < heads m ->
  Rsum sk (fun j => get 0%R a [i; j; bb; hh]) = 1%R.
Proof.
  intros Hi Hsk Hb Hh.
  rewrite (@Rsum_ext sk _
             (fun j => (exp (get 0%R s' [i; j; bb; hh])
                        * / Rsum sk (fun j' =>
                              exp (get 0%R s' [i; j'; bb; hh])))%R))
    by (intros j Hj; now rewrite (st_attn_val T)).
  rewrite Rsum_scal. apply Rinv_r.
  pose proof (normaliser_pos i bb hh Hsk). lra.
Qed.

Lemma masked_weight_le (i j0 j1 bb hh : nat) :
  i < sq -> j0 < sk -> j1 < sk -> bb < b -> hh < heads m ->
  admits mask i j0 bb = false -> admits mask i j1 bb = true ->
  (get 0%R a [i; j0; bb; hh]
   <= exp (sentinel - get 0%R s [i; j1; bb; hh]))%R.
Proof.
  intros Hi Hj0 Hj1 Hb Hh H0 H1.
  rewrite (st_attn_val T), (st_masked_val T), H0 by assumption.
  set (S := Rsum sk (fun j' => exp (get 0%R s' [i; j'; bb; hh]))).
  assert (Hge : (exp (get 0%R s [i; j1; bb; hh]) <= S)%R).
  { pose proof (@Rsum_ge_term sk
                  (fun j' => exp (get 0%R s' [i; j'; bb; hh])) j1 Hj1) as G.
    simpl in G. rewrite (st_masked_val T), H1 in G by assumption.
    apply G. intros; left; apply exp_pos. }
  pose proof (exp_pos (get 0%R s [i; j1; bb; hh])) as Hp1.
  pose proof (exp_pos sentinel) as Hps.
  unfold Rminus. rewrite exp_plus, exp_Ropp. unfold Rdiv.
  apply Rmult_le_compat_l; [lra|].
  apply Rinv_le_contravar; assumption.
Qed.

Lemma single_key_weight (i bb hh : nat) :
  sk = 1 -> i < sq -> bb < b -> hh < heads m ->
  get 0%R a [i; 0; bb; hh] = 1%R.
Proof.
  intros Hsk Hi Hb Hh.
  pose proof (weights_sum Hi ltac:(lia) Hb Hh) as Hs.
  rewrite Hsk in Hs. rewrite Rsum_S, Rsum_0 in Hs. lra.
Qed.
End Weights.

Lemma exp_sentinel_small : (exp sentinel < / 1000000000)%R.
Proof.
  unfold sentinel.
  replace (-1000000000)%R with (Ropp 1000000000) by lra.
  rewrite exp_Ropp.
  apply Rinv_lt_contravar.
  - apply Rmult_lt_0_compat; [lra|apply exp_pos].
  - pose proof (exp_ineq1 1000000000 ltac:(lra)). lra.
Qed.

(** ** C3: the weights over the key positions sum to one *)

(** C3: with no mask and dropout disabled, on inputs of the documented
    shapes with at least one query position, key position and batch entry,
    the call succeeds, the tensor it emits and retains is the softmax output
    of shape [[seq_len_q; seq_len_k; batch_size; heads]], and for every
    [(i, bb, hh)] its entries over the key axis [j] sum to 1. *)
Theorem softmax_rows_sum_to_one (m : MultiHeadAttention) (q k v : Tensor R)
    (noise : nat -> bool) (st : State) (sq sk b dm : nat) :
  well_configured m dm -> heads m * d_k m = dm -> dropout_disabled m ->
  shapes_ok q k v sq sk b dm -> 0 < sq -> 0 < sk -> 0 < b ->
  exists out a,
    forward m q k v None noise st
    = (Ok out, mkState (Some a) (tracker st ++ [("attn"%string, a)])) /\
    shape a = [sq; sk; b; heads m] /\
    forall i bb hh, i < sq -> bb < b -> hh < heads m ->
      Rsum sk (fun j => get 0%R a [i; j; bb; hh]) = 1%R.
Proof.
  intros Hwc Hdm Hdis Hsh Hsq Hsk Hb.
  destruct (forward_steps None noise Hwc Hsh I)
    as (lq & lk & lv & s & s' & a & x & T).
  destruct Hwc as (_ & _ & _ & Hin & Hout & _).
  destruct (@final_steps_ok (output m) x sq b (heads m) (d_k m)
              (st_x_shape T) ltac:(lia) Hsq Hb) as (out & Ho & _ & _).
  exists out, a. split; [|split].
  - rewrite (st_forward T), Ho. now rewrite (dropout_call_disabled _ _ Hdis).
  - exact (st_attn_shape T).
  - intros i bb hh Hi Hbb Hh. now apply (weights_sum T).
Qed.

Lemma softmax_rows_sum_to_one_witness :
  exists out a,
    forward (example_mha 0) query2 keys3 keys3 None no_noise state0
    = (Ok out, mkState (Some a) (tracker state0 ++ [("attn"%string, a)])) /\
    shape a = [2; 3; 1; 2] /\
    forall i bb hh, i < 2 -> bb < 1 -> hh < 2 ->
      Rsum 3 (fun j => get 0%R a [i; j; bb; hh]) = 1%R.
Proof.
  apply (@softmax_rows_sum_to_one (example_mha 0) query2 keys3 keys3
           no_noise state0 2 3 1 4).
  - apply example_well_configured.
  - reflexivity.
  - right. reflexivity.
  - repeat split.
  - lia.
  - lia.
  - lia.
Defined.

(** ** C4: masked key positions *)

(** What the call emits on [one_hot] with the only key masked. *)
Lemma all_masked_weight :
  exists out a,
    forward (example_mha 0) one_hot one_hot one_hot (Some mask_none)
            no_noise state0
    = (Ok out, mkState (Some a) [("attn"%string, a)]) /\
    get 0%R a [0; 0; 0; 0] = 1%R.
Proof.
  assert (Hm : mask_ok (Some mask_none) 1 1 1) by (exists 1; auto).
  assert (Hsh : shapes_ok one_hot one_hot one_hot 1 1 1 4) by (repeat split).
  destruct (forward_steps (Some mask_none) no_noise
              (example_well_configured 0) Hsh Hm)
    as (lq & lk & lv & s & s' & a & x & T).
  destruct (@final_steps_ok (output (example_mha 0)) x 1 1 2 2
              (st_x_shape T) eq_refl ltac:(lia) ltac:(lia))
    as (out & Ho & _ & _).
  exists out, a. split.
  - rewrite (st_forward T), Ho.
    rewrite dropout_call_disabled by (right; reflexivity). reflexivity.
  - apply (single_key_weight T); simpl; lia.
Qed.

(** C4, as stated, fails: on a single key position that the mask excludes,
    the weight of that position is 1. *)
Lemma masked_weight_counterexample :
  mask_at mask_none 0 0 0 = false /\
  exists out a,
    forward (example_mha 0) one_hot one_hot one_hot (Some mask_none)
            no_noise state0
    = (Ok out, mkState (Some a) [("attn"%string, a)]) /\
    get 0%R a [0; 0; 0; 0] = 1%R.
Proof. split; [reflexivity|exact all_masked_weight]. Qed.

(** C4, amended: with an accepted mask, the scores [s'] that enter the
    softmax hold the sentinel [-1e9] wherever the mask is false; the emitted
    weight of an excluded key [j0] is non-negative and, for every key [j1]
    that the mask admits for the same query and batch entry, at most
    [exp (-1e9 - s1)] where [s1] is the scaled score of [j1]; it is below
    [1e-9] as soon as one admitted key has a non-negative scaled score.
    Nothing is claimed when no key is admitted. *)
Theorem masked_weight_bound (m : MultiHeadAttention) (q k v : Tensor R)
    (mk : Tensor bool) (noise : nat -> bool) (st : State)
    (sq sk b dm : nat) :
  well_configured m dm -> heads m * d_k m = dm ->
  shapes_ok q k v sq sk b dm -> mask_ok (Some mk) sq sk b ->
  0 < sq -> 0 < b ->
  exists qh kh s s' a out st',
    Prepare_call (query m) q = Ok qh /\ Prepare_call (key m) k = Ok kh /\
    scaled_scores m qh kh = Ok s /\
    apply_mask s (Some (unsqueeze_last mk)) = Ok s' /\
    softmax_dim1 s' = Ok a /\
    forward m q k v (Some mk) noise st = (Ok out, st') /\
    tracker st' = tracker st ++ [("attn"%string, a)] /\
    forall i j0 bb hh, i < sq -> j0 < sk -> bb < b -> hh < heads m ->
      mask_at mk i j0 bb = false ->
      get 0%R s' [i; j0; bb; hh] = sentinel /\
      (0 <= get 0%R a [i; j0; bb; hh])%R /\
      forall j1, j1 < sk -> mask_at mk i j1 bb = true ->
        (get 0%R a [i; j0; bb; hh]
         <= exp (sentinel - get 0%R s [i; j1; bb; hh]))%R /\
        ((0 <= get 0%R s [i; j1; bb; hh])%R ->
         (get 0%R a [i; j0; bb; hh] < / 1000000000)%R).
Proof.
  intros Hwc Hdm Hsh Hmk Hsq Hb.
  destruct (forward_steps (Some mk) noise Hwc Hsh Hmk)
    as (lq & lk & lv & s & s' & a & x & T).
  destruct Hwc as (_ & _ & _ & Hin & Hout & _).
  destruct (@final_steps_ok (output m) x sq b (heads m) (d_k m)
              (st_x_shape T) ltac:(lia) Hsq Hb) as (out & Ho & _ & _).
  exists (mkTensor [sq; b; heads m; d_k m] (data lq)),
         (mkTensor [sk; b; heads m; d_k m] (data lk)), s, s', a, out.
  eexists.
  split; [exact (st_query T)|]. split; [exact (st_key T)|].
  split; [exact (st_scores T)|]. split; [exact (st_masked T)|].
  split; [exact (st_softmax T)|].
  split; [rewrite (st_forward T), Ho; reflexivity|].
  split; [reflexivity|].
  intros i j0 bb hh Hi Hj0 Hbb Hh H0.
  split; [|split].
  - rewrite (st_masked_val T) by assumption. simpl admits. now rewrite H0.
  - left. now apply (weight_pos T).
  - intros j1 Hj1 H1.
    assert (Hle : (get 0%R a [i; j0; bb; hh]
                   <= exp (sentinel - get 0%R s [i; j1; bb; hh]))%R)
      by now apply (masked_weight_le T).
    split; [exact Hle|]. intros Hs1.
    apply Rle_lt_trans with (1 := Hle).
    apply Rle_lt_trans with (2 := exp_sentinel_small).
    destruct Hs1 as [Hlt|Heq].
    + left. apply exp_increasing. lra.
    + right. f_equal. lra.
Qed.

Lemma masked_weight_bound_witness :
  exists qh kh s s' a out st',
    Prepare_call (query (example_mha 0)) query2 = Ok qh /\
    Prepare_call (key (example_mha 0)) keys3 = Ok kh /\
    scaled_scores (example_mha 0) qh kh = Ok s /\
    apply_mask s (Some (unsqueeze_last mask13)) = Ok s' /\
    softmax_dim1 s' = Ok a /\
    forward (example_mha 0) query2 keys3 keys3 (Some mask13) no_noise state0
    = (Ok out, st') /\
    tracker st' = tracker state0 ++ [("attn"%string, a)] /\
    forall i j0 bb hh, i < 2 -> j0 < 3 -> bb < 1 -> hh < 2 ->
      mask_at mask13 i j0 bb = false ->
      get 0%R s' [i; j0; bb; hh] = sentinel /\
      (0 <= get 0%R a [i; j0; bb; hh])%R /\
      forall j1, j1 < 3 -> mask_at mask13 i j1 bb = true ->
        (get 0%R a [i; j0; bb; hh]
         <= exp (sentinel - get 0%R s [i; j1; bb; hh]))%R /\
        ((0 <= get 0%R s [i; j1; bb; hh])%R ->
         (get 0%R a [i; j0; bb; hh] < / 1000000000)%R).
Proof.
  apply (@masked_weight_bound (example_mha 0) query2 keys3 keys3 mask13
           no_noise state0 2 3 1 4).
  - apply example_well_configured.
  - reflexivity.
  - repeat split.
  - exists 1. split; [reflexivity|left; reflexivity].
  - lia.
  - lia.
Defined.

(** ** Tensors that agree entry by entry *)

Lemma tensor_ext {A : Type} (dflt : A) (t1 t2 : Tensor A) :
  wf t1 -> wf t2 -> shape t1 = shape t2 ->
  (forall idx, in_range (shape t1) idx -> get dflt t1 idx = get dflt t2 idx) ->
  t1 = t2.
Proof.
  intros H1 H2 Hs Hv.
  rewrite <- (build_get dflt H1), <- (build_get dflt H2), <- Hs.
  now apply build_ext.
Qed.

Lemma Rsum_zero (n : nat) (f : nat -> R) :
  (forall j, j < n -> f j = 0%R) -> Rsum n f = 0%R.
Proof.
  induction n as [|n IH]; intros H; [reflexivity|].
  rewrite Rsum_S, IH, (H n) by (intros; try apply H; lia). lra.
Qed.

(** Entry [(i, bb, c)] of the concatenated heads is entry
    [(i, bb, c / d_k, c mod d_k)] of the per-head tensor. *)
Lemma concat_get (x : Tensor R) (sq b h dk i bb c : nat) :
  shape x = [sq; b; h; dk] -> c < h * dk ->
  get 0%R (mkTensor [sq; b; h * dk] (data x)) [i; bb; c]
  = get 0%R x [i; bb; c / dk; c mod dk].
Proof.
  intros Hx Hc. unfold get; simpl. rewrite Hx; simpl. f_equal.
  pose proof (Nat.div_mod_eq c dk). nia.
Qed.

Lemma linear_call_val (l : Linear) (x y : Tensor R) (s b c : nat) :
  shape x = [s; b; c] -> linear_call l x = Ok y ->
  forall i bb o, i < s -> bb < b -> o < out_features l ->
    get 0%R y [i; bb; o] =
    (Rsum c (fun k => get 0%R x [i; bb; k] * weight l o k)
     + match lbias l with Some bv => bv o | None => 0 end)%R.
Proof.
  intros Hx Hy i bb o Hi Hb Ho. unfold linear_call in Hy. rewrite Hx in Hy.
  destruct (c =? in_features l); [|discriminate].
  inversion Hy; subst y; clear Hy.
  now rewrite get_build by now apply in_range3.
Qed.

Lemma nth_all_zero (l : list R) (k : nat) :
  Forall (fun r => r = 0%R) l -> nth k l 0%R = 0%R.
Proof.
  intros H. revert k. induction H as [|r l Hr _ IH]; intros [|k]; simpl; auto.
Qed.

(** When every draw drops its entry, dropout returns zeros. *)
Lemma dropout_all_dropped (d : Dropout) (noise : nat -> bool) (x : Tensor R)
    (idx : list nat) :
  p d <> 0%R -> (forall n, noise n = false) ->
  get 0%R (dropout_call true d noise x) idx = 0%R.
Proof.
  intros Hp Hn. unfold dropout_call, get.
  destruct (Req_dec_T (p d) 0) as [E0|_]; [contradiction|].
  destruct (Req_dec_T (p d) 1) as [_|_]; simpl; apply nth_all_zero.
  - apply Forall_forall. intros r Hr. apply in_map_iff in Hr.
    destruct Hr as (y & <- & _). lra.
  - unfold mapi. apply Forall_forall. intros r Hr. apply in_map_iff in Hr.
    destruct Hr as (y & <- & _). rewrite Hn. lra.
Qed.

(** A call in training mode in which every weight is dropped: the retained
    tensor is zero, the emitted one is positive, and the output is the bias
    of the output layer. *)
Lemma forward_all_dropped (m : MultiHeadAttention) (q k v : Tensor R)
    (mask : option (Tensor bool)) (noise : nat -> bool) (st : State)
    (sq sk b dm : nat) :
  well_configured m dm -> heads m * d_k m = dm ->
  shapes_ok q k v sq sk b dm -> mask_ok mask sq sk b -> 0 < sq -> 0 < b ->
  training m = true -> p (dropout m) <> 0%R -> (forall n, noise n = false) ->
  exists out a a',
    forward m q k v mask noise st
    = (Ok out, mkState (Some a') (tracker st ++ [("attn"%string, a)])) /\
    a' = dropout_call (training m) (dropout m) noise a /\
    shape out = [sq; b; dm] /\
    (forall idx, get 0%R a' idx = 0%R) /\
    (forall i j bb hh, i < sq -> j < sk -> bb < b -> hh < heads m ->
       (0 < get 0%R a [i; j; bb; hh])%R) /\
    (forall i bb o, i < sq -> bb < b -> o < dm ->
       get 0%R out [i; bb; o]
       = match lbias (output m) with Some bv => bv o | None => 0%R end).
Proof.
  intros Hwc Hdm Hsh Hmk Hsq Hb Htr Hp Hn.
  destruct (forward_steps mask noise Hwc Hsh Hmk)
    as (lq & lk & lv & s & s' & a & x & T).
  destruct Hwc as (_ & _ & _ & Hin & Hout & Hh & Hdk).
  destruct (@final_steps_ok (output m) x sq b (heads m) (d_k m)
              (st_x_shape T) ltac:(lia) Hsq Hb) as (out & Ho & Hlo & Hso).
  exists out, a, (dropout_call (training m) (dropout m) noise a).
  split; [rewrite (st_forward T), Ho; reflexivity|].
  split; [reflexivity|].
  split; [now rewrite Hso, Hout|].
  assert (Hz : forall idx,
             get 0%R (dropout_call (training m) (dropout m) noise a) idx = 0%R)
    by (intros idx; rewrite Htr; now apply dropout_all_dropped).
  split; [exact Hz|]. split; [intros; now apply (weight_pos T)|].
  intros i bb o Hi Hbb Ho'.
  rewrite (@linear_call_val (output m)
             (mkTensor [sq; b; heads m * d_k m] (data x)) out sq b
             (heads m * d_k m) eq_refl Hlo) by lia.
  rewrite Rsum_zero; [lra|].
  intros c Hc. rewrite (@concat_get x sq b (heads m) (d_k m) i bb c
                          (st_x_shape T) Hc).
  rewrite (st_x_val T); try assumption.
  - rewrite Rsum_zero; [lra|]. intros j Hj. rewrite Hz. lra.
  - apply Nat.Div0.div_lt_upper_bound. lia.
  - apply Nat.mod_upper_bound. lia.
Qed.

(** ** C6: a single query and a single key *)

(** C6, as stated, fails: the module as constructed is in training mode, and
    with dropout probability 1/2 and every draw dropping its entry the
    retained weight is 0 and the first output entry is 0, while the output
    transform of the projected value vector has first entry 1. *)
Lemma single_position_counterexample :
  exists lv claimed out st',
    linear_call (linear (value (example_mha (1 / 2)))) one_hot = Ok lv /\
    linear_call (output (example_mha (1 / 2))) lv = Ok claimed /\
    get 0%R claimed [0; 0; 0] = 1%R /\
    forward (example_mha (1 / 2)) one_hot one_hot one_hot None no_noise state0
    = (Ok out, st') /\
    get 0%R out [0; 0; 0] = 0%R /\
    exists a', attn st' = Some a' /\ get 0%R a' [0; 0; 0; 0] = 0%R.
Proof.
  destruct (@linear_call_ok (linear (value (example_mha (1 / 2)))) one_hot
              1 1 4 eq_refl eq_refl) as (lv & Hlv & Hslv & _).
  destruct (@linear_call_ok (output (example_mha (1 / 2))) lv
              1 1 4 Hslv eq_refl) as (cl & Hcl & _ & _).
  assert (Hsh : shapes_ok one_hot one_hot one_hot 1 1 1 4) by (repeat split).
  destruct (@forward_all_dropped (example_mha (1 / 2)) one_hot one_hot one_hot
              None no_noise state0 1 1 1 4
              (example_well_configured _) eq_refl Hsh I
              ltac:(lia) ltac:(lia) eq_refl)
    as (out & a & a' & Hf & _ & _ & Hz & _ & Hout).
  { simpl. lra. }
  { reflexivity. }
  exists lv, cl, out. eexists.
  split; [exact Hlv|]. split; [exact Hcl|]. split; [|split; [exact Hf|split]].
  - rewrite (@linear_call_val (output (example_mha (1 / 2))) lv cl 1 1 4
               Hslv Hcl) by (simpl; lia).
    unfold Rsum; simpl.
    rewrite !(@linear_call_val (linear (value (example_mha (1 / 2))))
                one_hot lv 1 1 4 eq_refl Hlv) by (simpl; lia).
    unfold Rsum, get, zero_bias; simpl. unfold eye; simpl. lra.
  - rewrite Hout by lia. reflexivity.
  - exists a'. split; [reflexivity|apply Hz].
Qed.

(** C6, amended: with dropout disabled, for one query position and one key
    position (and no mask or an accepted one), every emitted attention
    weight is 1 and the output is the output transform applied to the linear
    transform of the value tensor. *)
Theorem single_position_output (m : MultiHeadAttention) (q k v : Tensor R)
    (mask : option (Tensor bool)) (noise : nat -> bool) (st : State)
    (b dm : nat) :
  well_configured m dm -> heads m * d_k m = dm -> dropout_disabled m ->
  shapes_ok q k v 1 1 b dm -> mask_ok mask 1 1 b -> 0 < b ->
  exists lv out a,
    linear_call (linear (value m)) v = Ok lv /\
    linear_call (output m) lv = Ok out /\
    forward m q k v mask noise st
    = (Ok out, mkState (Some a) (tracker st ++ [("attn"%string, a)])) /\
    forall bb hh, bb < b -> hh < heads m -> get 0%R a [0; 0; bb; hh] = 1%R.
Proof.
  intros Hwc Hdm Hdis Hsh Hmk Hb.
  destruct (forward_steps mask noise Hwc Hsh Hmk)
    as (lq & lk & lv & s & s' & a & x & T).
  destruct Hwc as (_ & _ & _ & Hin & Hout & _).
  destruct (@final_steps_ok (output m) x 1 b (heads m) (d_k m)
              (st_x_shape T) ltac:(lia) ltac:(lia) Hb)
    as (out & Ho & Hlo & _).
  assert (Hone : forall bb hh, bb < b -> hh < heads m ->
                   get 0%R a [0; 0; bb; hh] = 1%R)
    by (intros; apply (single_key_weight T); auto).
  assert (Hx : x = mkTensor [1; b; heads m; d_k m] (data lv)).
  { apply (tensor_ext 0%R).
    - exact (st_x_wf T).
    - unfold wf; simpl shape; simpl data.
      rewrite (st_lv_wf T), (st_lv_shape T). simpl. lia.
    - exact (st_x_shape T).
    - rewrite (st_x_shape T).
      intros [|i [|bb [|hh [|d [|? ?]]]]]; simpl; try tauto.
      intros (Hi & Hbb & Hh & Hd & _).
      rewrite (st_x_val T) by assumption.
      rewrite (dropout_call_disabled _ _ Hdis).
      rewrite Rsum_S, Rsum_0.
      assert (i = 0) by lia; subst i. rewrite Hone by assumption. lra. }
  assert (Hlv : mkTensor [1; b; heads m * d_k m] (data x) = lv).
  { rewrite Hx; simpl data. pose proof (st_lv_shape T) as Hs.
    destruct lv as [sh d]; simpl in *. now subst sh. }
  rewrite Hlv in Hlo.
  exists lv, out, a.
  split; [exact (st_lv T)|]. split; [exact Hlo|]. split; [|exact Hone].
  rewrite (st_forward T), Ho. now rewrite (dropout_call_disabled _ _ Hdis).
Qed.

Lemma single_position_output_witness :
  exists lv out a,
    linear_call (linear (value (eval (example_mha (1 / 2))))) one_hot = Ok lv /\
    linear_call (output (eval (example_mha (1 / 2)))) lv = Ok out /\
    forward (eval (example_mha (1 / 2))) one_hot one_hot one_hot
            (Some mask_none) no_noise state0
    = (Ok out, mkState (Some a) (tracker state0 ++ [("attn"%string, a)])) /\
    forall bb hh, bb < 1 -> hh < heads (eval (example_mha (1 / 2))) ->
      get 0%R a [0; 0; bb; hh] = 1%R.
Proof.
  apply (@single_position_output (eval (example_mha (1 / 2)))
           one_hot one_hot one_hot (Some mask_none) no_noise state0 1 4).
  - apply eval_well_configured, example_well_configured.
  - reflexivity.
  - left. reflexivity.
  - repeat split.
  - exists 1. split; [reflexivity|left; reflexivity].
  - lia.
Defined.

(** ** C10: the emitted and the retained attention tensors *)

Lemma check_mask_Ok_inv (mk mk' : Tensor bool) :
  check_mask mk = Ok mk' -> mk' = unsqueeze_last mk.
Proof.
  unfold check_mask. destruct (shape mk) as [|m0 rest]; [discriminate|].
  destruct (m0 =? 1); [now inversion 1|].
  destruct rest as [|m1 rest']; [discriminate|].
  destruct (m0 =? m1); [now inversion 1|discriminate].
Qed.

Lemma softmax_dim1_pos (t a : Tensor R) (idx : list nat) :
  softmax_dim1 t = Ok a -> in_range (shape a) idx ->
  shape a = shape t /\ (0 < get 0%R a idx)%R.
Proof.
  unfold softmax_dim1.
  destruct (shape t) as [|d0 [|nj rest]] eqn:Hs; try discriminate.
  intros H; inversion H; subst a; clear H. simpl shape. intros Hr.
  split; [reflexivity|]. rewrite get_build by exact Hr.
  apply Rdiv_lt_0_compat; [apply exp_pos|].
  apply Rsum_pos; [|intros; apply exp_pos].
  destruct idx as [|i [|j js]]; simpl in Hr; try tauto. lia.
Qed.

Lemma attention_weights_pos (m : MultiHeadAttention) (q k : Tensor R)
    (mask : option (Tensor bool)) (a : Tensor R) (idx : list nat) :
  attention_weights m q k mask = Ok a -> in_range (shape a) idx ->
  (0 < get 0%R a idx)%R.
Proof.
  unfold attention_weights.
  destruct (scaled_scores m q k) as [s|e]; [simpl|discriminate].
  destruct (apply_mask s mask) as [s'|e]; [simpl|discriminate].
  intros H Hr. now apply (softmax_dim1_pos _ _ H).
Qed.

(** C10: after a call that returns, the observer has received one more
    tensor, the softmax output [a] computed from the projected query and key
    (before dropout), and [self.attn] holds the image of [a] under dropout,
    whatever it held before.  The two coincide when dropout is disabled; in
    training mode with a non-zero probability they differ when every draw
    drops its entry and [a] is not empty. *)
Theorem attention_side_channel (m : MultiHeadAttention) (q k v : Tensor R)
    (mask : option (Tensor bool)) (noise : nat -> bool) (st st' : State)
    (out : Tensor R) :
  forward m q k v mask noise st = (Ok out, st') ->
  exists qh kh a,
    Prepare_call (query m) q = Ok qh /\ Prepare_call (key m) k = Ok kh /\
    attention_weights m qh kh (option_map (@unsqueeze_last bool) mask) = Ok a /\
    tracker st' = tracker st ++ [("attn"%string, a)] /\
    attn st' = Some (dropout_call (training m) (dropout m) noise a) /\
    (dropout_disabled m -> attn st' = Some a) /\
    (training m = true -> p (dropout m) <> 0%R ->
     (forall n, noise n = false) -> 0 < numel (shape a) ->
     attn st' <> Some a).
Proof.
  unfold forward.
  destruct (shape q) as [|sq [|b [|c [|? ?]]]]; try discriminate.
  unfold mbind, lift, tracker_debug, set_attn.
  destruct (match mask with
            | Some mk => do mk' <- check_mask mk; Ok (Some mk')
            | None => Ok None
            end) as [mask'|e] eqn:Hmask; [|discriminate].
  assert (Hm' : mask' = option_map (@unsqueeze_last bool) mask).
  { destruct mask as [mk|]; simpl in *; [|now inversion Hmask].
    destruct (check_mask mk) as [r|e] eqn:Hc; [|discriminate].
    apply check_mask_Ok_inv in Hc. simpl in Hmask. now inversion Hmask; subst. }
  subst mask'.
  destruct (Prepare_call (query m) q) as [qh|e]; [|discriminate].
  destruct (Prepare_call (key m) k) as [kh|e]; [|discriminate].
  destruct (Prepare_call (value m) v) as [vh|e]; [|discriminate].
  destruct (attention_weights m qh kh _) as [a|e] eqn:Ha; [|discriminate].
  destruct (einsum_av _ vh) as [x|e]; [|discriminate].
  destruct (concat_heads x sq b) as [x'|e]; [|discriminate].
  intros H. inversion H; subst; clear H. simpl.
  exists qh, kh, a.
  split; [reflexivity|]. split; [reflexivity|]. split; [exact Ha|].
  split; [reflexivity|]. split; [reflexivity|]. split.
  - intros Hd. now rewrite (dropout_call_disabled _ _ Hd).
  - intros Htr Hp Hn Hnum Heq. inversion Heq as [Heq']; clear Heq.
    pose proof (unravel_in_range (shape a) Hnum) as Hr.
    pose proof (@attention_weights_pos m qh kh _ a _ Ha Hr) as Hpos.
    rewrite <- Heq', Htr in Hpos.
    rewrite dropout_all_dropped in Hpos by assumption. lra.
Qed.

Lemma attention_side_channel_witness :
  exists out st',
    forward (example_mha (1 / 2)) query2 keys3 keys3 (Some mask13)
            no_noise state0 = (Ok out, st') /\
    exists qh kh a,
      Prepare_call (query (example_mha (1 / 2))) query2 = Ok qh /\
      Prepare_call (key (example_mha (1 / 2))) keys3 = Ok kh /\
      attention_weights (example_mha (1 / 2)) qh kh
        (option_map (@unsqueeze_last bool) (Some mask13)) = Ok a /\
      tracker st' = tracker state0 ++ [("attn"%string, a)] /\
      attn st'
      = Some (dropout_call (training (example_mha (1 / 2)))
                (dropout (example_mha (1 / 2))) no_noise a) /\
      (dropout_disabled (example_mha (1 / 2)) -> attn st' = Some a) /\
      (training (example_mha (1 / 2)) = true ->
       p (dropout (example_mha (1 / 2))) <> 0%R ->
       (forall n, no_noise n = false) -> 0 < numel (shape a) ->
       attn st' <> Some a).
Proof.
  assert (Hsh : shapes_ok query2 keys3 keys3 2 3 1 4) by (repeat split).
  assert (Hmk : mask_ok (Some mask13) 2 3 1)
    by (exists 1; split; [reflexivity|left; reflexivity]).
  destruct (@output_shape_aux (example_mha (1 / 2)) query2 keys3 keys3
              (Some mask13) no_noise state0 2 3 1 4
              (example_well_configured _) eq_refl Hsh Hmk
              ltac:(lia) ltac:(lia)) as (out & st' & Hf).
  exists out, st'. split; [exact Hf|].
  exact (@attention_side_channel (example_mha (1 / 2)) query2 keys3 keys3
           (Some mask13) no_noise state0 st' out Hf).
Defined.

(** * Further properties of the module *)

(** ** Construction: which arguments are accepted *)

(** X1: construction succeeds exactly when [1 <= heads <= d_model] and the
    dropout probability lies in [[0, 1]]. *)
Theorem init_succeeds_iff (h dm : Z) (prob : R) (bias : bool) (w : Params) :
  (exists m, init h dm prob bias w = Ok m) <->
  ((0 < h)%Z /\ (h <= dm)%Z /\ (0 <= prob <= 1)%R).
Proof.
  split.
  - intros (m & H). exact (init_Ok_inv _ _ _ _ _ H).
  - intros (Hh & Hdm & Hp). eexists. apply (init_ok bias w Hh Hdm Hp).
Qed.

(** X2: with no head, or with more heads than features (and a valid
    probability), construction raises [ZeroDivisionError]: from
    [d_model // heads] in the first case, from [1 / math.sqrt(0)] in the
    second. *)
Theorem init_zero_division (h dm : Z) (prob : R) (bias : bool) (w : Params) :
  h = 0%Z \/ ((0 <= dm < h)%Z /\ (0 <= prob <= 1)%R) ->
  init h dm prob bias w = Raise ZeroDivisionError.
Proof.
  intros [->|((Hdm & Hlt) & Hp)]; [reflexivity|].
  assert (Hdk : (dm / h = 0)%Z) by (apply Z.div_small; lia).
  unfold init, Prepare_init, nn_Linear, nn_Dropout, inv_sqrt.
  rewrite Hdk.
  replace (h =? 0)%Z with false by (symmetry; apply Z.eqb_neq; lia).
  replace (dm <? 0)%Z with false by (symmetry; apply Z.ltb_ge; lia).
  replace (h * 0 <? 0)%Z with false by (symmetry; apply Z.ltb_ge; lia).
  simpl.
  destruct (Rlt_dec prob 0); [lra|].
  destruct (Rlt_dec 1 prob); [lra|].
  reflexivity.
Qed.

Lemma init_zero_division_witness :
  init 0 4 (1 / 10) true example_params = Raise ZeroDivisionError /\
  init 8 4 (1 / 10) true example_params = Raise ZeroDivisionError.
Proof.
  split.
  - apply init_zero_division. left. reflexivity.
  - apply init_zero_division. right. split; [lia|lra].
Defined.

(** ** The projection into heads *)

Lemma linear_call_shape (l : Linear) (x y : Tensor R) (s b c : nat) :
  shape x = [s; b; c] -> linear_call l x = Ok y ->
  c = in_features l /\ shape y = [s; b; out_features l] /\ wf y.
Proof.
  intros Hx Hy. unfold linear_call in Hy. rewrite Hx in Hy.
  destruct (c =? in_features l) eqn:E; [|discriminate].
  apply Nat.eqb_eq in E. inversion Hy; subst y; clear Hy.
  split; [exact E|]. split; [reflexivity|apply build_wf].
Qed.

Lemma view_get (t : Tensor R) (s b h dk i bb hh d : nat) :
  get 0%R (mkTensor [s; b; h; dk] (data t)) [i; bb; hh; d]
  = get 0%R (mkTensor [s; b; h * dk] (data t)) [i; bb; hh * dk + d].
Proof. unfold get; simpl. f_equal. lia. Qed.

(** X3: on an input of shape [[seq_len; batch_size; d_model]] the projection
    returns a tensor of shape [[seq_len; batch_size; heads; d_k]] whose entry
    [(i, bb, hh, d)] is the inner product of the input vector at [(i, bb)]
    with row [hh * d_k + d] of the weight matrix, plus the bias of that row
    when there is one: head [hh] reads rows [hh * d_k .. hh * d_k + d_k - 1]. *)
Theorem Prepare_call_entries (pm : PrepareForMultiHeadAttention)
    (x : Tensor R) (s b dm h dk : nat) :
  prepare_ok pm dm h dk -> shape x = [s; b; dm] ->
  exists y, Prepare_call pm x = Ok y /\ shape y = [s; b; h; dk] /\
    forall i bb hh d, i < s -> bb < b -> hh < h -> d < dk ->
      get 0%R y [i; bb; hh; d] =
      (Rsum dm (fun c =>
         get 0%R x [i; bb; c] * weight (linear pm) (hh * dk + d)%nat c)
       + match lbias (linear pm) with
         | Some bv => bv (hh * dk + d)%nat
         | None => 0
         end)%R.
Proof.
  intros Hp Hx.
  destruct (Prepare_call_ok x Hp Hx) as (y & Hy & Hsy & Hwy & Hc).
  destruct Hp as (Hin & Hout & _ & _).
  eexists. split; [exact Hc|]. split; [reflexivity|].
  intros i bb hh d Hi Hb Hh Hd.
  rewrite view_get.
  assert (Hy' : mkTensor [s; b; h * dk] (data y) = y)
    by (destruct y as [sh dat]; simpl in *; now subst sh).
  rewrite Hy'.
  apply (@linear_call_val (linear pm) x y s b dm Hx Hy); try assumption.
  rewrite Hout. nia.
Qed.

Lemma Prepare_call_entries_witness :
  exists y, Prepare_call example_prepare query2 = Ok y /\
    shape y = [2; 1; 2; 2] /\
    forall i bb hh d, i < 2 -> bb < 1 -> hh < 2 -> d < 2 ->
      get 0%R y [i; bb; hh; d] =
      (Rsum 4 (fun c =>
         get 0%R query2 [i; bb; c]
         * weight (linear example_prepare) (hh * 2 + d)%nat c)
       + match lbias (linear example_prepare) with
         | Some bv => bv (hh * 2 + d)%nat
         | None => 0
         end)%R.
Proof.
  apply (@Prepare_call_entries example_prepare query2 2 1 4 2 2).
  - repeat split.
  - reflexivity.
Defined.

(** ** Calls that raise *)

Lemma Prepare_call_mismatch (pm : PrepareForMultiHeadAttention)
    (x : Tensor R) (s b c dm h dk : nat) :
  prepare_ok pm dm h dk -> shape x = [s; b; c] -> c <> dm ->
  Prepare_call pm x = Raise RuntimeError.
Proof.
  intros (Hin & _) Hx Hc. unfold Prepare_call. rewrite Hx.
  rewrite (@linear_call_mismatch (linear pm) x s b c Hx); [reflexivity|].
  now rewrite Hin.
Qed.

Lemma Prepare_call_some (pm : PrepareForMultiHeadAttention)
    (x : Tensor R) (s b dm h dk : nat) :
  prepare_ok pm dm h dk -> shape x = [s; b; dm] ->
  exists y, Prepare_call pm x = Ok y.
Proof.
  intros Hp Hx. destruct (Prepare_call_ok x Hp Hx) as (y & _ & _ & _ & Hc).
  eexists. exact Hc.
Qed.

(** X4: when query, key and value have rank 3 and one of them has a feature
    width other than [d_model], the call (with no mask, or with a mask that
    passes the assertion) raises [RuntimeError] and leaves the state as it
    was: nothing is emitted and [self.attn] is not assigned. *)
Theorem wrong_width_raises (m : MultiHeadAttention) (q k v : Tensor R)
    (mask : option (Tensor bool)) (noise : nat -> bool) (st : State)
    (dm sq bq cq sk bk ck sv bv cv : nat) :
  well_configured m dm ->
  shape q = [sq; bq; cq] -> shape k = [sk; bk; ck] ->
  shape v = [sv; bv; cv] ->
  (forall mk, mask = Some mk -> exists mk', check_mask mk = Ok mk') ->
  cq <> dm \/ ck <> dm \/ cv <> dm ->
  forward m q k v mask noise st = (Raise RuntimeError, st).
Proof.
  intros (Hpq & Hpk & Hpv & _) Hq Hk Hv Hmask Hw.
  unfold forward. rewrite Hq. unfold mbind, lift.
  assert (Hchk : exists mask', match mask with
                 | Some mk => do mk' <- check_mask mk; Ok (Some mk')
                 | None => Ok None
                 end = Ok mask').
  { destruct mask as [mk|]; [|eexists; reflexivity].
    destruct (Hmask mk eq_refl) as (mk' & ->). eexists; reflexivity. }
  destruct Hchk as (mask' & ->).
  destruct (Nat.eq_dec cq dm) as [->|Hnq];
    [|now rewrite (Prepare_call_mismatch q Hpq Hq Hnq)].
  destruct (Prepare_call_some q Hpq Hq) as (qh & ->).
  destruct (Nat.eq_dec ck dm) as [->|Hnk];
    [|now rewrite (Prepare_call_mismatch k Hpk Hk Hnk)].
  destruct (Prepare_call_some k Hpk Hk) as (kh & ->).
  destruct (Nat.eq_dec cv dm) as [->|Hnv];
    [|now rewrite (Prepare_call_mismatch v Hpv Hv Hnv)].
  exfalso. tauto.
Qed.

Lemma wrong_width_raises_witness :
  forward (example_mha 0) one_hot narrow one_hot (Some mask_none)
          no_noise state0 = (Raise RuntimeError, state0).
Proof.
  apply (@wrong_width_raises (example_mha 0) one_hot narrow one_hot
           (Some mask_none) no_noise state0 4 1 1 4 1 1 3 1 1 4).
  - apply example_well_configured.
  - reflexivity.
  - reflexivity.
  - reflexivity.
  - intros mk E. inversion E; subst. eexists. reflexivity.
  - right. left. lia.
Defined.

Lemma bdim_none (a b : nat) :
  a <> b -> a <> 1 -> b <> 1 -> bdim a b = None.
Proof.
  intros H1 H2 H3. unfold bdim.
  apply Nat.eqb_neq in H1, H2, H3. now rewrite H1, H2, H3.
Qed.

(** X5: when key and value disagree on the number of positions (and neither
    has exactly one), the call raises [RuntimeError] at the aggregation: by
    then the observer has received the attention weights, of shape
    [[seq_len_q; seq_len_k; batch_size; heads]], while [self.attn] still
    holds what it held before the call. *)
Theorem key_value_length_mismatch (m : MultiHeadAttention)
    (q k v : Tensor R) (mask : option (Tensor bool)) (noise : nat -> bool)
    (st : State) (sq sk sv b dm : nat) :
  well_configured m dm ->
  shape q = [sq; b; dm] -> shape k = [sk; b; dm] -> shape v = [sv; b; dm] ->
  mask_ok mask sq sk b ->
  sk <> sv -> sk <> 1 -> sv <> 1 ->
  exists a, shape a = [sq; sk; b; heads m] /\
    forward m q k v mask noise st
    = (Raise RuntimeError,
       mkState (attn st) (tracker st ++ [("attn"%string, a)])).
Proof.
  intros (Hpq & Hpk & Hpv & _) Hq Hk Hv Hm Hne Hk1 Hv1.
  destruct (Prepare_call_ok q Hpq Hq) as (lq & _ & _ & _ & Hcq).
  destruct (Prepare_call_ok k Hpk Hk) as (lk & _ & _ & _ & Hck).
  destruct (Prepare_call_ok v Hpv Hv) as (lv & _ & _ & _ & Hcv).
  destruct (@attention_weights_ok m
              (mkTensor [sq; b; heads m; d_k m] (data lq))
              (mkTensor [sk; b; heads m; d_k m] (data lk))
              mask sq sk b (heads m) (d_k m) eq_refl eq_refl Hm)
    as (s & s' & a & _ & _ & _ & Hss' & _ & Hsm & Ha).
  destruct (softmax_dim1_ok s' Hss') as (a0 & Ha0 & Hsa & _).
  rewrite Hsm in Ha0. inversion Ha0; subst a0; clear Ha0.
  exists a. split; [exact Hsa|].
  unfold forward. rewrite Hq.
  assert (Hchk : match mask with
                 | Some mk => do mk' <- check_mask mk; Ok (Some mk')
                 | None => Ok None
                 end = Ok (option_map (@unsqueeze_last bool) mask)).
  { destruct mask as [mk|]; [|reflexivity].
    destruct Hm as (mq & Hmk & Hmq).
    rewrite (check_mask_ok mk Hmk) by (destruct Hmq as [?|[? ?]]; lia).
    reflexivity. }
  unfold mbind, lift, tracker_debug, set_attn.
  rewrite Hchk, Hcq, Hck, Hcv, Ha.
  unfold einsum_av. rewrite dropout_call_shape, Hsa. simpl shape. cbv iota.
  now rewrite (bdim_none Hne Hk1 Hv1).
Qed.

Lemma key_value_length_mismatch_witness :
  exists a, shape a = [2; 3; 1; heads (example_mha 0)] /\
    forward (example_mha 0) query2 keys3 values2 None no_noise state0
    = (Raise RuntimeError,
       mkState (attn state0) (tracker state0 ++ [("attn"%string, a)])).
Proof.
  apply (@key_value_length_mismatch (example_mha 0) query2 keys3 values2
           None no_noise state0 2 3 2 1 4).
  - apply example_well_configured.
  - reflexivity.
  - reflexivity.
  - reflexivity.
  - exact I.
  - lia.
  - lia.
  - lia.
Defined.

(** X6: with no query position or no batch entry the call raises
    [RuntimeError] at the head concatenation, where the last size cannot be
    inferred; the (empty) attention tensor has already been emitted and
    assigned to [self.attn]. *)
Theorem empty_query_raises (m : MultiHeadAttention) (q k v : Tensor R)
    (mask : option (Tensor bool)) (noise : nat -> bool) (st : State)
    (sq sk b dm : nat) :
  well_configured m dm -> shapes_ok q k v sq sk b dm ->
  mask_ok mask sq sk b -> sq = 0 \/ b = 0 ->
  exists a, shape a = [sq; sk; b; heads m] /\
    forward m q k v mask noise st
    = (Raise RuntimeError,
       mkState (Some (dropout_call (training m) (dropout m) noise a))
               (tracker st ++ [("attn"%string, a)])).
Proof.
  intros Hwc Hsh Hmk Hz.
  destruct (forward_steps mask noise Hwc Hsh Hmk)
    as (lq & lk & lv & s & s' & a & x & T).
  exists a. split; [exact (st_attn_shape T)|].
  rewrite (st_forward T), concat_heads_empty by nia. reflexivity.
Qed.

Lemma empty_query_raises_witness :
  exists a, shape a = [0; 3; 1; heads (example_mha 0)] /\
    forward (example_mha 0) empty_query keys3 keys3 None no_noise state0
    = (Raise RuntimeError,
       mkState (Some (dropout_call (training (example_mha 0))
                        (dropout (example_mha 0)) no_noise a))
               (tracker state0 ++ [("attn"%string, a)])).
Proof.
  apply (@empty_query_raises (example_mha 0) empty_query keys3 keys3 None
           no_noise state0 0 3 1 4).
  - apply example_well_configured.
  - repeat split.
  - exact I.
  - left. reflexivity.
Defined.

(** ** Scores *)

Lemma get_scores_val (q k : Tensor R) (sq sk b h dk : nat) :
  shape q = [sq; b; h; dk] -> shape k = [sk; b; h; dk] ->
  exists s, get_scores q k = Ok s /\ shape s = [sq; sk; b; h] /\
    forall i j bb hh, i < sq -> j < sk -> bb < b -> hh < h ->
      get 0%R s [i; j; bb; hh] =
      Rsum dk (fun d =>
        (get 0%R q [i; bb; hh; d] * get 0%R k [j; bb; hh; d])%R).
Proof.
  intros Hq Hk. unfold get_scores, einsum_qk.
  rewrite Hq, Hk, !bdim_refl.
  eexists; split; [reflexivity|]. split; [reflexivity|].
  intros i j bb hh Hi Hj Hb Hh.
  rewrite get_build by now apply in_range4.
  unfold ix; simpl. apply Rsum_ext. intros d Hd.
  rewrite !bget_in_range; [reflexivity| |].
  - rewrite Hk. now apply in_range4.
  - rewrite Hq. now apply in_range4.
Qed.

(** X7: [get_scores] is symmetric up to transposition of the two position
    axes: the score of query position [i] against key position [j] is the
    score obtained at [(j, i)] when the two arguments are exchanged. *)
Theorem get_scores_transpose (q k : Tensor R) (sq sk b h dk : nat) :
  shape q = [sq; b; h; dk] -> shape k = [sk; b; h; dk] ->
  exists s t, get_scores q k = Ok s /\ get_scores k q = Ok t /\
    shape s = [sq; sk; b; h] /\ shape t = [sk; sq; b; h] /\
    forall i j bb hh, i < sq -> j < sk -> bb < b -> hh < h ->
      get 0%R s [i; j; bb; hh] = get 0%R t [j; i; bb; hh].
Proof.
  intros Hq Hk.
  destruct (get_scores_val q k Hq Hk) as (s & Hs & Hss & Hvs).
  destruct (get_scores_val k q Hk Hq) as (t & Ht & Hst & Hvt).
  exists s, t. repeat (split; [assumption|]).
  intros i j bb hh Hi Hj Hb Hh.
  rewrite Hvs, Hvt by assumption. apply Rsum_ext. intros d _. lra.
Qed.

Lemma get_scores_transpose_witness :
  exists s t,
    get_scores (mkTensor [2; 1; 2; 2] (data query2))
               (mkTensor [3; 1; 2; 2] (data keys3)) = Ok s /\
    get_scores (mkTensor [3; 1; 2; 2] (data keys3))
               (mkTensor [2; 1; 2; 2] (data query2)) = Ok t /\
    shape s = [2; 3; 1; 2] /\ shape t = [3; 2; 1; 2] /\
    forall i j bb hh, i < 2 -> j < 3 -> bb < 1 -> hh < 2 ->
      get 0%R s [i; j; bb; hh] = get 0%R t [j; i; bb; hh].
Proof.
  apply (@get_scores_transpose (mkTensor [2; 1; 2; 2] (data query2))
           (mkTensor [3; 1; 2; 2] (data keys3)) 2 3 1 2 2).
  - reflexivity.
  - reflexivity.
Defined.

(** ** The emitted weights *)

Lemma Rsum_const (n : nat) (c : R) :
  Rsum n (fun _ => c) = (INR n * c)%R.
Proof.
  induction n as [|n IH]; [rewrite Rsum_0; simpl; lra|].
  rewrite Rsum_S, IH, S_INR. lra.
Qed.



(** X9: when the mask excludes every key for query [i] in batch entry [bb],
    the emitted weights of that query are uniform, [1 / seq_len_k] each: the
    row is not an error and is not zero. *)
Theorem all_masked_row_uniform (m : MultiHeadAttention) (q k v : Tensor R)
    (mk : Tensor bool) (noise : nat -> bool)
    (sq sk b dm i bb : nat) :
  well_configured m dm -> shapes_ok q k v sq sk b dm ->
  mask_ok (Some mk) sq sk b -> i < sq -> bb < b ->
  (forall j, j < sk -> mask_at mk i j bb = false) ->
  exists a,
    (forall st, tracker (snd (forward m q k v (Some mk) noise st))
                = tracker st ++ [("attn"%string, a)]) /\
    forall j hh, j < sk -> hh < heads m ->
      get 0%R a [i; j; bb; hh] = (/ INR sk)%R.
Proof.
  intros Hwc Hsh Hmk Hi Hb Hall.
  destruct (forward_steps (Some mk) noise Hwc Hsh Hmk)
    as (lq & lk & lv & s & s' & a & x & T).
  exists a. split; [intros st; now rewrite (st_forward T)|].
  intros j hh Hj Hh.
  rewrite (st_attn_val T) by assumption.
  rewrite (@Rsum_ext sk _ (fun _ => exp sentinel)).
  - rewrite (st_masked_val T) by assumption. simpl admits.
    rewrite (Hall j Hj), Rsum_const.
    pose proof (exp_pos sentinel).
    assert (0 < INR sk)%R by (apply lt_0_INR; lia).
    field. split; lra.
  - intros j' Hj'. rewrite (st_masked_val T) by assumption. simpl admits.
    now rewrite (Hall j' Hj').
Qed.

Lemma all_masked_row_uniform_witness :
  exists a,
    (forall st,
       tracker (snd (forward (example_mha 0) query2 keys3 keys3
                       (Some mask_no13) no_noise st))
       = tracker st ++ [("attn"%string, a)]) /\
    forall j hh, j < 3 -> hh < heads (example_mha 0) ->
      get 0%R a [1; j; 0; hh] = (/ INR 3)%R.
Proof.
  apply (@all_masked_row_uniform (example_mha 0) query2 keys3 keys3
           mask_no13 no_noise 2 3 1 4 1 0).
  - apply example_well_configured.
  - repeat split.
  - exists 1. split; [reflexivity|left; reflexivity].
  - lia.
  - lia.
  - intros [|[|[|j]]] Hj; try reflexivity. lia.
Defined.

(** ** The mask acts only through its decisions *)

Lemma mul_scalar_wf (t : Tensor R) (c : R) : wf t -> wf (mul_scalar t c).
Proof. unfold wf, mul_scalar; simpl. now rewrite length_map. Qed.

Lemma scaled_scores_wf (m : MultiHeadAttention) (q k s : Tensor R)
    (sq sk b h dk : nat) :
  shape q = [sq; b; h; dk] -> shape k = [sk; b; h; dk] ->
  scaled_scores m q k = Ok s -> wf s.
Proof.
  intros Hq Hk. unfold scaled_scores, get_scores, einsum_qk.
  rewrite Hq, Hk, !bdim_refl. simpl rbind. intros H.
  inversion H; subst s. apply mul_scalar_wf, build_wf.
Qed.

Lemma apply_mask_wf (s s' : Tensor R) (mask : option (Tensor bool)) :
  wf s -> apply_mask s mask = Ok s' -> wf s'.
Proof.
  intros Hwf. unfold apply_mask, masked_fill. destruct mask as [mk|].
  - destruct (broadcast_shapes _ _); [|discriminate].
    intros H; inversion H; subst s'. apply build_wf.
  - intros H; inversion H; now subst s'.
Qed.

Lemma Ok_inj {A : Type} (a b : A) : Ok a = Ok b -> a = b.
Proof. now inversion 1. Qed.

(** Two masks that take the same decision at every (query, key, batch)
    triple give the same call. *)
Lemma forward_mask_equiv (m : MultiHeadAttention) (q k v : Tensor R)
    (mask1 mask2 : option (Tensor bool)) (noise : nat -> bool) (st : State)
    (sq sk b dm : nat) :
  well_configured m dm -> shapes_ok q k v sq sk b dm ->
  mask_ok mask1 sq sk b -> mask_ok mask2 sq sk b ->
  (forall i j bb, i < sq -> j < sk -> bb < b ->
     admits mask1 i j bb = admits mask2 i j bb) ->
  forward m q k v mask1 noise st = forward m q k v mask2 noise st.
Proof.
  intros Hwc Hsh Hm1 Hm2 Hadm.
  destruct (forward_steps mask1 noise Hwc Hsh Hm1)
    as (lq & lk & lv & s & s1 & a1 & x1 & T1).
  destruct (forward_steps mask2 noise Hwc Hsh Hm2)
    as (lq' & lk' & lv' & t & s2 & a2 & x2 & T2).
  assert (lq' = lq)
    by (apply Ok_inj; rewrite <- (st_lq T1), <- (st_lq T2); reflexivity).
  assert (lk' = lk)
    by (apply Ok_inj; rewrite <- (st_lk T1), <- (st_lk T2); reflexivity).
  assert (lv' = lv)
    by (apply Ok_inj; rewrite <- (st_lv T1), <- (st_lv T2); reflexivity).
  subst lq' lk' lv'.
  assert (t = s)
    by (apply Ok_inj; rewrite <- (st_scores T1), <- (st_scores T2);
        reflexivity).
  subst t.
  assert (Hwfs : wf s)
    by (apply (@scaled_scores_wf m
                 (mkTensor [sq; b; heads m; d_k m] (data lq))
                 (mkTensor [sk; b; heads m; d_k m] (data lk))
                 s sq sk b (heads m) (d_k m)
                 eq_refl eq_refl (st_scores T1))).
  assert (Hs' : s2 = s1).
  { apply (tensor_ext 0%R).
    - exact (apply_mask_wf _ Hwfs (st_masked T2)).
    - exact (apply_mask_wf _ Hwfs (st_masked T1)).
    - now rewrite (st_masked_shape T1), (st_masked_shape T2).
    - rewrite (st_masked_shape T2).
      intros [|i [|j [|bb [|hh [|? ?]]]]]; simpl; try tauto.
      intros (Hi & Hj & Hb & Hh & _).
      rewrite (st_masked_val T1), (st_masked_val T2) by assumption.
      now rewrite Hadm. }
  subst s2.
  assert (a2 = a1)
    by (apply Ok_inj; rewrite <- (st_softmax T1), <- (st_softmax T2);
        reflexivity).
  subst a2.
  assert (x2 = x1)
    by (apply Ok_inj; rewrite <- (st_x T1), <- (st_x T2); reflexivity).
  subst x2.
  now rewrite (st_forward T1), (st_forward T2).
Qed.

(** X10: an accepted mask that admits every key for every query and batch
    entry changes nothing: the call returns, emits and retains exactly what
    it does with no mask. *)
Theorem all_true_mask_is_no_mask (m : MultiHeadAttention) (q k v : Tensor R)
    (mk : Tensor bool) (noise : nat -> bool) (st : State)
    (sq sk b dm : nat) :
  well_configured m dm -> shapes_ok q k v sq sk b dm ->
  mask_ok (Some mk) sq sk b ->
  (forall i j bb, i < sq -> j < sk -> bb < b -> mask_at mk i j bb = true) ->
  forward m q k v (Some mk) noise st = forward m q k v None noise st.
Proof.
  intros Hwc Hsh Hmk Hall.
  apply (@forward_mask_equiv m q k v (Some mk) None noise st sq sk b dm
           Hwc Hsh Hmk I).
  intros i j bb Hi Hj Hb. simpl. now apply Hall.
Qed.

Lemma all_true_mask_is_no_mask_witness :
  forward (example_mha (1 / 2)) query2 keys3 keys3 (Some mask_all13)
          no_noise state0
  = forward (example_mha (1 / 2)) query2 keys3 keys3 None no_noise state0.
Proof.
  apply (@all_true_mask_is_no_mask (example_mha (1 / 2)) query2 keys3 keys3
           mask_all13 no_noise state0 2 3 1 4).
  - apply example_well_configured.
  - repeat split.
  - exists 1. split; [reflexivity|left; reflexivity].
  - intros i [|[|[|j]]] [|bb] Hi Hj Hb; try reflexivity; lia.
Defined.

(** X11: a mask of shape [[1; seq_len; batch_size]] and a mask of shape
    [[seq_len; seq_len; batch_size]] whose every row repeats it give the same
    call: the broadcast over the query axis is the repetition of the row. *)
Theorem broadcast_mask_is_repeated_mask (m : MultiHeadAttention)
    (q k v : Tensor R) (mk1 mkn : Tensor bool) (noise : nat -> bool)
    (st : State) (n b dm : nat) :
  well_configured m dm -> shapes_ok q k v n n b dm ->
  shape mk1 = [1; n; b] -> shape mkn = [n; n; b] ->
  (forall i j bb, i < n -> j < n -> bb < b ->
     get true mkn [i; j; bb] = get true mk1 [0; j; bb]) ->
  forward m q k v (Some mk1) noise st = forward m q k v (Some mkn) noise st.
Proof.
  intros Hwc Hsh H1 Hn Hrep.
  assert (Hm1 : mask_ok (Some mk1) n n b) by (exists 1; auto).
  assert (Hmn : mask_ok (Some mkn) n n b) by (exists n; auto).
  apply (@forward_mask_equiv m q k v (Some mk1) (Some mkn) noise st n n b dm
           Hwc Hsh Hm1 Hmn).
  intros i j bb Hi Hj Hb. simpl. unfold mask_at. rewrite H1, Hn. simpl hd.
  rewrite Nat.eqb_refl.
  destruct (n =? 1) eqn:E.
  - apply Nat.eqb_eq in E. subst n. rewrite <- (Hrep 0 j bb) by lia.
    reflexivity.
  - now rewrite Hrep.
Qed.

Lemma broadcast_mask_is_repeated_mask_witness :
  forward (example_mha 0) query2 values2 values2 (Some mask12) no_noise state0
  = forward (example_mha 0) query2 values2 values2 (Some mask22)
            no_noise state0.
Proof.
  apply (@broadcast_mask_is_repeated_mask (example_mha 0) query2 values2
           values2 mask12 mask22 no_noise state0 2 1 4).
  - apply example_well_configured.
  - repeat split.
  - reflexivity.
  - reflexivity.
  - intros [|[|i]] [|[|j]] [|bb] Hi Hj Hb; try reflexivity; lia.
Defined.

(** ** What the output depends on *)

Lemma reshape_self (t : Tensor R) (sh : list nat) :
  shape t = sh -> mkTensor sh (data t) = t.
Proof. destruct t as [sh' d]; simpl. now intros ->. Qed.

(** Entry [(j, bb, hh, d)] of the projected values in terms of the linear
    transform [lv] of the value tensor. *)
Lemma projected_value_get (lv : Tensor R) (sk b h dk j bb c : nat) :
  shape lv = [sk; b; h * dk] -> 0 < dk ->
  get 0%R (mkTensor [sk; b; h; dk] (data lv)) [j; bb; c / dk; c mod dk]
  = get 0%R lv [j; bb; c].
Proof.
  intros Hs Hdk. rewrite view_get, (reshape_self lv Hs).
  pose proof (Nat.div_mod_eq c dk).
  replace (c / dk * dk + c mod dk) with c by lia. reflexivity.
Qed.

(** X12: with dropout disabled, if every position of the value tensor holds
    the same vector in batch entry [bb], the output at every query position
    of that batch entry is the output transform of the linearly transformed
    value vector, whatever the queries, the keys and the mask are. *)
Theorem equal_values_output (m : MultiHeadAttention) (q k v : Tensor R)
    (mask : option (Tensor bool)) (noise : nat -> bool) (st : State)
    (sq sk b dm bb : nat) :
  well_configured m dm -> heads m * d_k m = dm -> dropout_disabled m ->
  shapes_ok q k v sq sk b dm -> mask_ok mask sq sk b ->
  0 < sq -> 0 < sk -> bb < b ->
  (forall j c, j < sk -> c < dm -> get 0%R v [j; bb; c] = get 0%R v [0; bb; c]) ->
  exists out st' lv ov,
    forward m q k v mask noise st = (Ok out, st') /\
    linear_call (linear (value m)) v = Ok lv /\
    linear_call (output m) lv = Ok ov /\
    forall i o, i < sq -> o < dm ->
      get 0%R out [i; bb; o] = get 0%R ov [0; bb; o].
Proof.
  intros Hwc Hdm Hdis Hsh Hmk Hsq Hsk Hbb Hsame.
  destruct (forward_steps mask noise Hwc Hsh Hmk)
    as (lq & lk & lv & s & s' & a & x & T).
  destruct Hsh as (_ & _ & Hv).
  destruct Hwc as (_ & _ & (Hvin & Hvout & _) & Hin & Hout & Hh & Hdk).
  destruct (@final_steps_ok (output m) x sq b (heads m) (d_k m)
              (st_x_shape T) ltac:(lia) Hsq ltac:(lia))
    as (out & Ho & Hlo & _).
  destruct (@linear_call_ok (output m) lv sk b (heads m * d_k m)
              (st_lv_shape T) ltac:(lia)) as (ov & Hov & _ & _).
  exists out. eexists. exists lv, ov.
  split; [rewrite (st_forward T), Ho; reflexivity|].
  split; [exact (st_lv T)|]. split; [exact Hov|].
  intros i o Hi Ho'.
  rewrite (@linear_call_val (output m)
             (mkTensor [sq; b; heads m * d_k m] (data x)) out sq b
             (heads m * d_k m) eq_refl Hlo) by lia.
  rewrite (@linear_call_val (output m) lv ov sk b (heads m * d_k m)
             (st_lv_shape T) Hov) by lia.
  f_equal. apply Rsum_ext. intros c Hc. f_equal.
  rewrite (@concat_get x sq b (heads m) (d_k m) i bb c (st_x_shape T) Hc).
  assert (Hcd : c / d_k m < heads m)
    by (apply Nat.Div0.div_lt_upper_bound; lia).
  assert (Hcm : c mod d_k m < d_k m) by (apply Nat.mod_upper_bound; lia).
  rewrite (st_x_val T) by assumption.
  rewrite (dropout_call_disabled _ _ Hdis).
  rewrite (@Rsum_ext sk _
             (fun j => (get 0%R a [i; j; bb; (c / d_k m)%nat]
                        * get 0%R lv [0%nat; bb; c])%R)).
  - rewrite Rsum_scal, (weights_sum T) by assumption. lra.
  - intros j Hj. f_equal.
    rewrite (@projected_value_get lv sk b (heads m) (d_k m) j bb c
               (st_lv_shape T) Hdk).
    rewrite !(@linear_call_val (linear (value m)) v lv sk b dm Hv (st_lv T))
      by lia.
    f_equal. apply Rsum_ext. intros c' Hc'. now rewrite Hsame.
Qed.

Lemma equal_values_output_witness :
  exists out st' lv ov,
    forward (example_mha 0) query2 values2 same_rows (Some mask12)
            no_noise state0 = (Ok out, st') /\
    linear_call (linear (value (example_mha 0))) same_rows = Ok lv /\
    linear_call (output (example_mha 0)) lv = Ok ov /\
    forall i o, i < 2 -> o < 4 ->
      get 0%R out [i; 0; o] = get 0%R ov [0; 0; o].
Proof.
  apply (@equal_values_output (example_mha 0) query2 values2 same_rows
           (Some mask12) no_noise state0 2 2 1 4 0).
  - apply example_well_configured.
  - reflexivity.
  - right. reflexivity.
  - repeat split.
  - exists 1. split; [reflexivity|left; reflexivity].
  - lia.
  - lia.
  - lia.
  - intros [|[|j]] c Hj Hc; try reflexivity; try lia.
    destruct c as [|[|[|[|c]]]]; try reflexivity. lia.
Defined.

(** ** Dropout, entry by entry *)

Lemma mapi_nth {A B : Type} (f : nat -> A -> B) (l : list A) (k : nat)
    (da : A) (db : B) :
  k < length l -> nth k (mapi f l) db = f k (nth k l da).
Proof.
  intros Hk. unfold mapi.
  rewrite (nth_indep _ db ((fun kx => f (fst kx) (snd kx)) (0, da)))
    by (rewrite length_map, length_combine, length_seq; lia).
  rewrite (map_nth (fun kx => f (fst kx) (snd kx))).
  rewrite combine_nth by now rewrite length_seq.
  rewrite seq_nth by exact Hk. reflexivity.
Qed.

Lemma dropout_call_get (tr : bool) (d : Dropout) (noise : nat -> bool)
    (x : Tensor R) (idx : list nat) :
  wf x -> in_range (shape x) idx ->
  get 0%R (dropout_call tr d noise x) idx
  = (get 0%R x idx * keep_factor tr d noise (ravel (shape x) idx))%R.
Proof.
  intros Hwf Hr. unfold dropout_call, keep_factor.
  destruct tr; [|lra].
  destruct (Req_dec_T (p d) 0); [lra|].
  destruct (Req_dec_T (p d) 1).
  - unfold get; simpl.
    rewrite <- (map_nth (fun v => (v * 0)%R)). f_equal. lra.
  - unfold get; simpl.
    apply (mapi_nth (fun k v =>
             (v * (if noise k then / (1 - p d) else 0))%R)).
    rewrite Hwf. now apply ravel_lt.
Qed.

(** X13: in training mode with a probability strictly between 0 and 1, each
    entry of the tensor retained in [self.attn] is the emitted weight divided
    by [1 - p] when its draw keeps it, and 0 when its draw drops it; the
    draw of entry [(i, j, bb, hh)] is the one at its row-major offset. *)
Theorem retained_entries (m : MultiHeadAttention) (q k v : Tensor R)
    (mask : option (Tensor bool)) (noise : nat -> bool)
    (sq sk b dm : nat) :
  well_configured m dm -> shapes_ok q k v sq sk b dm ->
  mask_ok mask sq sk b ->
  training m = true -> (0 < p (dropout m) < 1)%R ->
  exists a a',
    (forall st, snd (forward m q k v mask noise st)
                = mkState (Some a') (tracker st ++ [("attn"%string, a)])) /\
    forall i j bb hh, i < sq -> j < sk -> bb < b -> hh < heads m ->
      get 0%R a' [i; j; bb; hh] =
      if noise (ravel [sq; sk; b; heads m] [i; j; bb; hh])
      then (get 0%R a [i; j; bb; hh] / (1 - p (dropout m)))%R
      else 0%R.
Proof.
  intros Hwc Hsh Hmk Htr Hp.
  destruct (forward_steps mask noise Hwc Hsh Hmk)
    as (lq & lk & lv & s & s' & a & x & T).
  exists a, (dropout_call (training m) (dropout m) noise a).
  split; [intros st; now rewrite (st_forward T)|].
  intros i j bb hh Hi Hj Hb Hh.
  rewrite dropout_call_get;
    [|exact (st_attn_wf T)|rewrite (st_attn_shape T); now apply in_range4].
  rewrite (st_attn_shape T). unfold keep_factor. rewrite Htr.
  destruct (Req_dec_T (p (dropout m)) 0); [lra|].
  destruct (Req_dec_T (p (dropout m)) 1); [lra|].
  destruct (noise _); unfold Rdiv; lra.
Qed.

Lemma retained_entries_witness :
  exists a a',
    (forall st,
       snd (forward (example_mha (1 / 2)) query2 keys3 keys3 None
              even_noise st)
       = mkState (Some a') (tracker st ++ [("attn"%string, a)])) /\
    forall i j bb hh, i < 2 -> j < 3 -> bb < 1 ->
      hh < heads (example_mha (1 / 2)) ->
      get 0%R a' [i; j; bb; hh] =
      if even_noise (ravel [2; 3; 1; heads (example_mha (1 / 2))]
                       [i; j; bb; hh])
      then (get 0%R a [i; j; bb; hh]
            / (1 - p (dropout (example_mha (1 / 2)))))%R
      else 0%R.
Proof.
  apply (@retained_entries (example_mha (1 / 2)) query2 keys3 keys3 None
           even_noise 2 3 1 4).
  - apply example_well_configured.
  - repeat split.
  - exact I.
  - reflexivity.
  - simpl. lra.
Defined.

(** ** No cross-talk between batch entries and query positions *)

Lemma projected_rows_agree (pm : PrepareForMultiHeadAttention)
    (x1 x2 l1 l2 : Tensor R) (s b dm h dk i bb : nat) :
  prepare_ok pm dm h dk ->
  shape x1 = [s; b; dm] -> shape x2 = [s; b; dm] ->
  linear_call (linear pm) x1 = Ok l1 -> linear_call (linear pm) x2 = Ok l2 ->
  i < s -> bb < b ->
  (forall c, c < dm -> get 0%R x1 [i; bb; c] = get 0%R x2 [i; bb; c]) ->
  forall hh d, hh < h -> d < dk ->
    get 0%R (mkTensor [s; b; h; dk] (data l1)) [i; bb; hh; d]
    = get 0%R (mkTensor [s; b; h; dk] (data l2)) [i; bb; hh; d].
Proof.
  intros (Hin & Hout & _) H1 H2 Hl1 Hl2 Hi Hb Hsame hh d Hh Hd.
  destruct (@linear_call_shape (linear pm) x1 l1 s b dm H1 Hl1)
    as (_ & Hs1 & _).
  destruct (@linear_call_shape (linear pm) x2 l2 s b dm H2 Hl2)
    as (_ & Hs2 & _).
  rewrite Hout in Hs1, Hs2.
  rewrite !view_get, (reshape_self l1 Hs1), (reshape_self l2 Hs2).
  rewrite (@linear_call_val (linear pm) x1 l1 s b dm H1 Hl1),
          (@linear_call_val (linear pm) x2 l2 s b dm H2 Hl2)
    by (try assumption; rewrite Hout; nia).
  f_equal. apply Rsum_ext. intros c Hc. now rewrite Hsame.
Qed.

(** X14: the output at query position [i] of batch entry [bb] depends only
    on the query vector at [(i, bb)], on the key and value vectors of batch
    entry [bb], on the mask and on the draws: two calls whose inputs agree
    there (same shapes, same mask, same draws) agree on that output row and
    on the weights emitted for it. *)
Theorem output_row_locality (m : MultiHeadAttention)
    (q1 k1 v1 q2 k2 v2 : Tensor R) (mask : option (Tensor bool))
    (noise : nat -> bool) (st1 st2 : State) (sq sk b dm i bb : nat) :
  well_configured m dm -> heads m * d_k m = dm ->
  shapes_ok q1 k1 v1 sq sk b dm -> shapes_ok q2 k2 v2 sq sk b dm ->
  mask_ok mask sq sk b -> i < sq -> bb < b ->
  (forall c, c < dm -> get 0%R q1 [i; bb; c] = get 0%R q2 [i; bb; c]) ->
  (forall j c, j < sk -> c < dm ->
     get 0%R k1 [j; bb; c] = get 0%R k2 [j; bb; c]) ->
  (forall j c, j < sk -> c < dm ->
     get 0%R v1 [j; bb; c] = get 0%R v2 [j; bb; c]) ->
  exists out1 out2 a1 a2 r1 r2,
    forward m q1 k1 v1 mask noise st1
    = (Ok out1, mkState r1 (tracker st1 ++ [("attn"%string, a1)])) /\
    forward m q2 k2 v2 mask noise st2
    = (Ok out2, mkState r2 (tracker st2 ++ [("attn"%string, a2)])) /\
    (forall j hh, j < sk -> hh < heads m ->
       get 0%R a1 [i; j; bb; hh] = get 0%R a2 [i; j; bb; hh]) /\
    forall o, o < dm -> get 0%R out1 [i; bb; o] = get 0%R out2 [i; bb; o].
Proof.
  intros Hwc Hdm Hsh1 Hsh2 Hmk Hi Hb Hq Hk Hv.
  destruct (forward_steps mask noise Hwc Hsh1 Hmk)
    as (lq1 & lk1 & lv1 & s1 & s1' & a1 & x1 & T1).
  destruct (forward_steps mask noise Hwc Hsh2 Hmk)
    as (lq2 & lk2 & lv2 & s2 & s2' & a2 & x2 & T2).
  destruct Hsh1 as (Hq1 & Hk1 & Hv1). destruct Hsh2 as (Hq2 & Hk2 & Hv2).
  destruct Hwc as (Hpq & Hpk & Hpv & Hin & Hout & Hh & Hdk).
  assert (Hsq : 0 < sq) by lia. assert (Hb0 : 0 < b) by lia.
  destruct (@final_steps_ok (output m) x1 sq b (heads m) (d_k m)
              (st_x_shape T1) ltac:(lia) Hsq Hb0) as (out1 & Ho1 & Hlo1 & _).
  destruct (@final_steps_ok (output m) x2 sq b (heads m) (d_k m)
              (st_x_shape T2) ltac:(lia) Hsq Hb0) as (out2 & Ho2 & Hlo2 & _).
  (* scores of row (i, bb) *)
  assert (Hs : forall j hh, j < sk -> hh < heads m ->
            get 0%R s1 [i; j; bb; hh] = get 0%R s2 [i; j; bb; hh]).
  { intros j hh Hj Hhh.
    destruct (@scaled_scores_ok m
                (mkTensor [sq; b; heads m; d_k m] (data lq1))
                (mkTensor [sk; b; heads m; d_k m] (data lk1))
                sq sk b (heads m) (d_k m) eq_refl eq_refl)
      as (t1 & Ht1 & _ & Hv1').
    destruct (@scaled_scores_ok m
                (mkTensor [sq; b; heads m; d_k m] (data lq2))
                (mkTensor [sk; b; heads m; d_k m] (data lk2))
                sq sk b (heads m) (d_k m) eq_refl eq_refl)
      as (t2 & Ht2 & _ & Hv2').
    rewrite (st_scores T1) in Ht1. rewrite (st_scores T2) in Ht2.
    apply Ok_inj in Ht1, Ht2. subst t1 t2.
    rewrite Hv1', Hv2' by assumption. f_equal.
    apply Rsum_ext. intros d Hd. f_equal.
    - apply (@projected_rows_agree (query m) q1 q2 lq1 lq2 sq b dm
               (heads m) (d_k m) i bb Hpq Hq1 Hq2 (st_lq T1) (st_lq T2)
               Hi Hb Hq); assumption.
    - apply (@projected_rows_agree (key m) k1 k2 lk1 lk2 sk b dm
               (heads m) (d_k m) j bb Hpk Hk1 Hk2 (st_lk T1) (st_lk T2)
               Hj Hb (fun c Hc => Hk j c Hj Hc)); assumption. }
  assert (Hs' : forall j hh, j < sk -> hh < heads m ->
            get 0%R s1' [i; j; bb; hh] = get 0%R s2' [i; j; bb; hh]).
  { intros j hh Hj Hhh.
    rewrite (st_masked_val T1), (st_masked_val T2) by assumption.
    now rewrite Hs. }
  assert (Ha : forall j hh, j < sk -> hh < heads m ->
            get 0%R a1 [i; j; bb; hh] = get 0%R a2 [i; j; bb; hh]).
  { intros j hh Hj Hhh.
    rewrite (st_attn_val T1), (st_attn_val T2) by assumption.
    rewrite Hs' by assumption. f_equal.
    apply Rsum_ext. intros j' Hj'. now rewrite Hs'. }
  exists out1, out2, a1, a2. do 2 eexists.
  split; [rewrite (st_forward T1), Ho1; reflexivity|].
  split; [rewrite (st_forward T2), Ho2; reflexivity|].
  split; [exact Ha|].
  intros o Ho.
  rewrite (@linear_call_val (output m)
             (mkTensor [sq; b; heads m * d_k m] (data x1)) out1 sq b
             (heads m * d_k m) eq_refl Hlo1) by lia.
  rewrite (@linear_call_val (output m)
             (mkTensor [sq; b; heads m * d_k m] (data x2)) out2 sq b
             (heads m * d_k m) eq_refl Hlo2) by lia.
  f_equal. apply Rsum_ext. intros c Hc. f_equal.
  rewrite (@concat_get x1 sq b (heads m) (d_k m) i bb c (st_x_shape T1) Hc).
  rewrite (@concat_get x2 sq b (heads m) (d_k m) i bb c (st_x_shape T2) Hc).
  assert (Hcd : c / d_k m < heads m)
    by (apply Nat.Div0.div_lt_upper_bound; lia).
  assert (Hcm : c mod d_k m < d_k m) by (apply Nat.mod_upper_bound; lia).
  rewrite (st_x_val T1), (st_x_val T2) by assumption.
  apply Rsum_ext. intros j Hj. f_equal.
  - rewrite !dropout_call_get;
      try exact (st_attn_wf T1); try exact (st_attn_wf T2);
      try (rewrite (st_attn_shape T1); now apply in_range4);
      try (rewrite (st_attn_shape T2); now apply in_range4).
    rewrite (st_attn_shape T1), (st_attn_shape T2).
    now rewrite Ha.
  - apply (@projected_rows_agree (value m) v1 v2 lv1 lv2 sk b dm
             (heads m) (d_k m) j bb Hpv Hv1 Hv2 (st_lv T1) (st_lv T2)
             Hj Hb (fun c' Hc' => Hv j c' Hj Hc')); assumption.
Qed.

Lemma output_row_locality_witness :
  exists out1 out2 a1 a2 r1 r2,
    forward (example_mha (1 / 2)) query2 keys3 keys3 (Some mask13)
            even_noise state0
    = (Ok out1, mkState r1 (tracker state0 ++ [("attn"%string, a1)])) /\
    forward (example_mha (1 / 2)) query2b keys3 keys3 (Some mask13)
            even_noise (mkState (Some one_hot) [])
    = (Ok out2,
       mkState r2 (tracker (mkState (Some one_hot) [])
                   ++ [("attn"%string, a2)])) /\
    (forall j hh, j < 3 -> hh < heads (example_mha (1 / 2)) ->
       get 0%R a1 [0; j; 0; hh] = get 0%R a2 [0; j; 0; hh]) /\
    forall o, o < 4 -> get 0%R out1 [0; 0; o] = get 0%R out2 [0; 0; o].
Proof.
  apply (@output_row_locality (example_mha (1 / 2)) query2 keys3 keys3
           query2b keys3 keys3 (Some mask13) even_noise state0
           (mkState (Some one_hot) []) 2 3 1 4 0 0).
  - apply example_well_configured.
  - reflexivity.
  - repeat split.
  - repeat split.
  - exists 1. split; [reflexivity|left; reflexivity].
  - lia.
  - lia.
  - intros [|[|[|[|c]]]] Hc; try reflexivity. lia.
  - reflexivity.
  - reflexivity.
Defined.

(** ** Successive calls *)

(** X15: after two calls on inputs of the documented shapes (whether or not
    they return), the observer holds, after what it held before, the weights
    of the first call and then those of the second, and [self.attn] holds
    the retained tensor of the second call only: the one a single second
    call would leave. *)
Theorem two_calls_state (m : MultiHeadAttention)
    (q1 k1 v1 q2 k2 v2 : Tensor R) (mask1 mask2 : option (Tensor bool))
    (n1 n2 : nat -> bool)
    (dm sq1 sk1 b1 sq2 sk2 b2 : nat) :
  well_configured m dm ->
  shapes_ok q1 k1 v1 sq1 sk1 b1 dm -> mask_ok mask1 sq1 sk1 b1 ->
  shapes_ok q2 k2 v2 sq2 sk2 b2 dm -> mask_ok mask2 sq2 sk2 b2 ->
  exists a1 a2 r2,
    (forall st, tracker (snd (forward m q1 k1 v1 mask1 n1 st))
                = tracker st ++ [("attn"%string, a1)]) /\
    (forall st, snd (forward m q2 k2 v2 mask2 n2 st)
                = mkState (Some r2) (tracker st ++ [("attn"%string, a2)])) /\
    forall st,
      snd (forward m q2 k2 v2 mask2 n2
             (snd (forward m q1 k1 v1 mask1 n1 st)))
      = mkState (Some r2)
          (tracker st ++ [("attn"%string, a1); ("attn"%string, a2)]).
Proof.
  intros Hwc Hsh1 Hm1 Hsh2 Hm2.
  destruct (forward_steps mask1 n1 Hwc Hsh1 Hm1)
    as (lq1 & lk1 & lv1 & s1 & s1' & a1 & x1 & T1).
  destruct (forward_steps mask2 n2 Hwc Hsh2 Hm2)
    as (lq2 & lk2 & lv2 & s2 & s2' & a2 & x2 & T2).
  exists a1, a2, (dropout_call (training m) (dropout m) n2 a2).
  split; [intros st; now rewrite (st_forward T1)|].
  split; [intros st; now rewrite (st_forward T2)|].
  intros st. rewrite (st_forward T2), (st_forward T1). simpl.
  now rewrite <- app_assoc.
Qed.

Lemma two_calls_state_witness :
  exists a1 a2 r2,
    (forall st,
       tracker (snd (forward (example_mha (1 / 2)) query2 keys3 keys3
                       (Some mask13) even_noise st))
       = tracker st ++ [("attn"%string, a1)]) /\
    (forall st,
       snd (forward (example_mha (1 / 2)) one_hot one_hot one_hot None
              no_noise st)
       = mkState (Some r2) (tracker st ++ [("attn"%string, a2)])) /\
    forall st,
      snd (forward (example_mha (1 / 2)) one_hot one_hot one_hot None
             no_noise
             (snd (forward (example_mha (1 / 2)) query2 keys3 keys3
                     (Some mask13) even_noise st)))
      = mkState (Some r2)
          (tracker st ++ [("attn"%string, a1); ("attn"%string, a2)]).
Proof.
  apply (@two_calls_state (example_mha (1 / 2)) query2 keys3 keys3
           one_hot one_hot one_hot (Some mask13) None even_noise no_noise
           4 2 3 1 1 1 1).
  - apply example_well_configured.
  - repeat split.
  - exists 1. split; [reflexivity|left; reflexivity].
  - repeat split.
  - exact I.
Defined.

(** ** The attention equation *)

(** X16: on a module with [heads * d_k = d_model] and inputs of the
    documented shapes (at least one query position and one batch entry), the
    call computes the formula of the docstring.  With [lq], [lk], [lv] the
    linear transforms of query, key and value: the emitted weight
    [(i, j, bb, hh)] is the softmax over [j] of the inner product of the
    [hh]-th slices of [lq] at [(i, bb)] and [lk] at [(j, bb)] times [scale],
    replaced by [-1e9] where the mask is false; and the output entry
    [(i, bb, o)] is the output layer applied to the retained weights times
    the slices of [lv]. *)
Theorem attention_equation (m : MultiHeadAttention) (q k v : Tensor R)
    (mask : option (Tensor bool)) (noise : nat -> bool) (st : State)
    (sq sk b dm : nat) :
  well_configured m dm -> heads m * d_k m = dm ->
  shapes_ok q k v sq sk b dm -> mask_ok mask sq sk b ->
  0 < sq -> 0 < b ->
  exists lq lk lv a a' out,
    linear_call (linear (query m)) q = Ok lq /\
    linear_call (linear (key m)) k = Ok lk /\
    linear_call (linear (value m)) v = Ok lv /\
    forward m q k v mask noise st
    = (Ok out, mkState (Some a') (tracker st ++ [("attn"%string, a)])) /\
    a' = dropout_call (training m) (dropout m) noise a /\
    (forall i j bb hh, i < sq -> j < sk -> bb < b -> hh < heads m ->
       let z := fun j' =>
         if admits mask i j' bb
         then (Rsum (d_k m) (fun d =>
                 get 0%R lq [i; bb; (hh * d_k m + d)%nat]
                 * get 0%R lk [j'; bb; (hh * d_k m + d)%nat]) * scale m)%R
         else sentinel in
       get 0%R a [i; j; bb; hh] = (exp (z j) / Rsum sk (fun j' => exp (z j')))%R)
    /\
    forall i bb o, i < sq -> bb < b -> o < dm ->
      get 0%R out [i; bb; o] =
      (Rsum dm (fun c =>
         Rsum sk (fun j =>
           get 0%R a' [i; j; bb; (c / d_k m)%nat] * get 0%R lv [j; bb; c])
         * weight (output m) o c)
       + match lbias (output m) with Some bv => bv o | None => 0 end)%R.
Proof.
  intros Hwc Hdm Hsh Hmk Hsq Hb.
  destruct (forward_steps mask noise Hwc Hsh Hmk)
    as (lq & lk & lv & s & s' & a & x & T).
  destruct Hsh as (Hq & Hk & Hv).
  destruct Hwc as (Hpq & Hpk & Hpv & Hin & Hout & Hh & Hdk).
  destruct (@final_steps_ok (output m) x sq b (heads m) (d_k m)
              (st_x_shape T) ltac:(lia) Hsq Hb) as (out & Ho & Hlo & _).
  destruct (@linear_call_shape (linear (query m)) q lq sq b dm Hq (st_lq T))
    as (_ & Hslq & _).
  destruct (@linear_call_shape (linear (key m)) k lk sk b dm Hk (st_lk T))
    as (_ & Hslk & _).
  destruct Hpq as (_ & Hoq & _). destruct Hpk as (_ & Hok & _).
  rewrite Hoq in Hslq. rewrite Hok in Hslk.
  destruct (@scaled_scores_ok m
              (mkTensor [sq; b; heads m; d_k m] (data lq))
              (mkTensor [sk; b; heads m; d_k m] (data lk))
              sq sk b (heads m) (d_k m) eq_refl eq_refl)
    as (t & Ht & _ & Hvs).
  rewrite (st_scores T) in Ht. apply Ok_inj in Ht. subst t.
  assert (Hz : forall i j bb hh, i < sq -> j < sk -> bb < b -> hh < heads m ->
            get 0%R s' [i; j; bb; hh] =
            if admits mask i j bb
            then (Rsum (d_k m) (fun d =>
                    get 0%R lq [i; bb; (hh * d_k m + d)%nat]
                    * get 0%R lk [j; bb; (hh * d_k m + d)%nat])
                  * scale m)%R
            else sentinel).
  { intros i j bb hh Hi Hj Hbb Hhh.
    rewrite (st_masked_val T), Hvs by assumption.
    destruct (admits mask i j bb); [|reflexivity].
    f_equal. apply Rsum_ext. intros d Hd.
    now rewrite !view_get, (reshape_self lq Hslq), (reshape_self lk Hslk). }
  exists lq, lk, lv, a, (dropout_call (training m) (dropout m) noise a), out.
  split; [exact (st_lq T)|]. split; [exact (st_lk T)|].
  split; [exact (st_lv T)|].
  split; [rewrite (st_forward T), Ho; reflexivity|].
  split; [reflexivity|]. split.
  - intros i j bb hh Hi Hj Hbb Hhh z.
    rewrite (st_attn_val T), Hz by assumption. unfold z. f_equal.
    apply Rsum_ext. intros j' Hj'. now rewrite Hz.
  - intros i bb o Hi Hbb Ho'.
    rewrite (@linear_call_val (output m)
               (mkTensor [sq; b; heads m * d_k m] (data x)) out sq b
               (heads m * d_k m) eq_refl Hlo) by lia.
    rewrite <- Hdm. f_equal. apply Rsum_ext. intros c Hc. f_equal.
    rewrite (@concat_get x sq b (heads m) (d_k m) i bb c (st_x_shape T))
      by lia.
    rewrite (st_x_val T); try assumption.
    + apply Rsum_ext. intros j Hj. f_equal.
      apply (@projected_value_get lv sk b (heads m) (d_k m) j bb c
               (st_lv_shape T) Hdk).
    + apply Nat.Div0.div_lt_upper_bound. lia.
    + apply Nat.mod_upper_bound. lia.
Qed.

Lemma attention_equation_witness :
  exists lq lk lv a a' out,
    linear_call (linear (query (example_mha (1 / 2)))) query2 = Ok lq /\
    linear_call (linear (key (example_mha (1 / 2)))) keys3 = Ok lk /\
    linear_call (linear (value (example_mha (1 / 2)))) keys3 = Ok lv /\
    forward (example_mha (1 / 2)) query2 keys3 keys3 (Some mask13)
            even_noise state0
    = (Ok out, mkState (Some a') (tracker state0 ++ [("attn"%string, a)])) /\
    a' = dropout_call (training (example_mha (1 / 2)))
           (dropout (example_mha (1 / 2))) even_noise a /\
    (forall i j bb hh, i < 2 -> j < 3 -> bb < 1 ->
       hh < heads (example_mha (1 / 2)) ->
       let z := fun j' =>
         if admits (Some mask13) i j' bb
         then (Rsum (d_k (example_mha (1 / 2))) (fun d =>
                 get 0%R lq [i; bb; (hh * d_k (example_mha (1 / 2)) + d)%nat]
                 * get 0%R lk
                     [j'; bb; (hh * d_k (example_mha (1 / 2)) + d)%nat])
               * scale (example_mha (1 / 2)))%R
         else sentinel in
       get 0%R a [i; j; bb; hh] = (exp (z j) / Rsum 3 (fun j' => exp (z j')))%R)
    /\
    forall i bb o, i < 2 -> bb < 1 -> o < 4 ->
      get 0%R out [i; bb; o] =
      (Rsum 4 (fun c =>
         Rsum 3 (fun j =>
           get 0%R a' [i; j; bb; (c / d_k (example_mha (1 / 2)))%nat]
           * get 0%R lv [j; bb; c])
         * weight (output (example_mha (1 / 2))) o c)
       + match lbias (output (example_mha (1 / 2))) with
         | Some bv => bv o
         | None => 0
         end)%R.
Proof.
  apply (@attention_equation (example_mha (1 / 2)) query2 keys3 keys3
           (Some mask13) even_noise state0 2 3 1 4).
  - apply example_well_configured.
  - reflexivity.
  - repeat split.
  - exists 1. split; [reflexivity|left; reflexivity].
  - lia.
  - lia.
Defined.

(** ** A mask whose key dimension does not match *)

(** X17: a mask of rank 3 that passes the assertion but whose key dimension
    differs from the number of key positions (neither being 1) makes the
    call raise [RuntimeError] when the scores are masked; nothing has been
    emitted or retained by then. *)
Theorem mask_key_length_mismatch (m : MultiHeadAttention) (q k v : Tensor R)
    (mk : Tensor bool) (noise : nat -> bool) (st : State)
    (sq sk b dm mq mkk mb : nat) :
  well_configured m dm -> shapes_ok q k v sq sk b dm ->
  shape mk = [mq; mkk; mb] -> mq = 1 \/ mq = mkk ->
  mkk <> sk -> mkk <> 1 -> sk <> 1 ->
  forward m q k v (Some mk) noise st = (Raise RuntimeError, st).
Proof.
  intros (Hpq & Hpk & Hpv & _) (Hq & Hk & Hv) Hmk Hmq Hne Hm1 Hk1.
  destruct (Prepare_call_ok q Hpq Hq) as (lq & _ & _ & _ & Hcq).
  destruct (Prepare_call_ok k Hpk Hk) as (lk & _ & _ & _ & Hck).
  destruct (Prepare_call_ok v Hpv Hv) as (lv & _ & _ & _ & Hcv).
  destruct (@scaled_scores_ok m
              (mkTensor [sq; b; heads m; d_k m] (data lq))
              (mkTensor [sk; b; heads m; d_k m] (data lk))
              sq sk b (heads m) (d_k m) eq_refl eq_refl)
    as (s & Hs & Hss & _).
  unfold forward. rewrite Hq. unfold mbind, lift.
  rewrite (check_mask_ok mk Hmk Hmq). simpl rbind.
  rewrite Hcq, Hck, Hcv.
  unfold attention_weights. rewrite Hs. simpl rbind.
  unfold apply_mask, masked_fill, broadcast_shapes.
  rewrite Hss. unfold eq0, unsqueeze_last. simpl shape. rewrite Hmk.
  simpl rev. simpl bshape_rev.
  rewrite (@bdim_none sk mkk) by auto.
  destruct (bdim (heads m) 1); destruct (bdim b mb); reflexivity.
Qed.

Lemma mask_key_length_mismatch_witness :
  forward (example_mha 0) query2 keys3 keys3 (Some mask22) no_noise state0
  = (Raise RuntimeError, state0).
Proof.
  apply (@mask_key_length_mismatch (example_mha 0) query2 keys3 keys3 mask22
           no_noise state0 2 3 1 4 2 2 1).
  - apply example_well_configured.
  - repeat split.
  - reflexivity.
  - right. reflexivity.
  - lia.
  - lia.
  - lia.
Defined.

(** ** Rows of weights sum to one, masked or not *)

(** X18: with no mask or an accepted one, in either mode, the weights the
    call emits for a query position, batch entry and head sum to 1 over the
    key positions, as soon as there is one key position: also when the mask
    excludes some or all of the keys. *)
Theorem emitted_rows_sum_to_one (m : MultiHeadAttention) (q k v : Tensor R)
    (mask : option (Tensor bool)) (noise : nat -> bool)
    (sq sk b dm : nat) :
  well_configured m dm -> shapes_ok q k v sq sk b dm ->
  mask_ok mask sq sk b -> 0 < sk ->
  exists a,
    (forall st, tracker (snd (forward m q k v mask noise st))
                = tracker st ++ [("attn"%string, a)]) /\
    forall i bb hh, i < sq -> bb < b -> hh < heads m ->
      Rsum sk (fun j => get 0%R a [i; j; bb; hh]) = 1%R.
Proof.
  intros Hwc Hsh Hmk Hsk.
  destruct (forward_steps mask noise Hwc Hsh Hmk)
    as (lq & lk & lv & s & s' & a & x & T).
  exists a. split; [intros st; now rewrite (st_forward T)|].
  intros i bb hh Hi Hb Hh. now apply (weights_sum T).
Qed.

Lemma emitted_rows_sum_to_one_witness :
  exists a,
    (forall st,
       tracker (snd (forward (example_mha (1 / 2)) query2 keys3 keys3
                       (Some mask_no13) even_noise st))
       = tracker st ++ [("attn"%string, a)]) /\
    forall i bb hh, i < 2 -> bb < 1 -> hh < heads (example_mha (1 / 2)) ->
      Rsum 3 (fun j => get 0%R a [i; j; bb; hh]) = 1%R.
Proof.
  apply (@emitted_rows_sum_to_one (example_mha (1 / 2)) query2 keys3 keys3
           (Some mask_no13) even_noise 2 3 1 4).
  - apply example_well_configured.
  - repeat split.
  - exists 1. split; [reflexivity|left; reflexivity].
  - lia.
Defined.

(** ** Dropout probability one *)

Lemma dropout_p_one (d : Dropout) (noise : nat -> bool) (x : Tensor R)
    (idx : list nat) :
  p d = 1%R -> get 0%R (dropout_call true d noise x) idx = 0%R.
Proof.
  intros Hp. unfold dropout_call, get.
  destruct (Req_dec_T (p d) 0) as [E0|_]; [lra|].
  destruct (Req_dec_T (p d) 1) as [_|E1]; [|contradiction].
  simpl. apply nth_all_zero. apply Forall_forall. intros r Hr.
  apply in_map_iff in Hr. destruct Hr as (y & <- & _). lra.
Qed.

(** X19: a module in training mode whose dropout probability is 1 (which the
    constructor accepts) retains a zero tensor and returns, at every
    position and batch entry, the bias of the output layer, whatever the
    inputs, the mask and the draws. *)
Theorem dropout_one_output (m : MultiHeadAttention) (q k v : Tensor R)
    (mask : option (Tensor bool)) (noise : nat -> bool) (st : State)
    (sq sk b dm : nat) :
  well_configured m dm -> heads m * d_k m = dm ->
  shapes_ok q k v sq sk b dm -> mask_ok mask sq sk b -> 0 < sq -> 0 < b ->
  training m = true -> p (dropout m) = 1%R ->
  exists out a a',
    forward m q k v mask noise st
    = (Ok out, mkState (Some a') (tracker st ++ [("attn"%string, a)])) /\
    (forall idx, get 0%R a' idx = 0%R) /\
    forall i bb o, i < sq -> bb < b -> o < dm ->
      get 0%R out [i; bb; o]
      = match lbias (output m) with Some bv => bv o | None => 0%R end.
Proof.
  intros Hwc Hdm Hsh Hmk Hsq Hb Htr Hp.
  destruct (forward_steps mask noise Hwc Hsh Hmk)
    as (lq & lk & lv & s & s' & a & x & T).
  destruct Hwc as (_ & _ & _ & Hin & Hout & Hh & Hdk).
  destruct (@final_steps_ok (output m) x sq b (heads m) (d_k m)
              (st_x_shape T) ltac:(lia) Hsq Hb) as (out & Ho & Hlo & _).
  exists out, a, (dropout_call (training m) (dropout m) noise a).
  split; [rewrite (st_forward T), Ho; reflexivity|].
  assert (Hz : forall idx,
             get 0%R (dropout_call (training m) (dropout m) noise a) idx = 0%R)
    by (intros idx; rewrite Htr; now apply dropout_p_one).
  split; [exact Hz|].
  intros i bb o Hi Hbb Ho'.
  rewrite (@linear_call_val (output m)
             (mkTensor [sq; b; heads m * d_k m] (data x)) out sq b
             (heads m * d_k m) eq_refl Hlo) by lia.
  rewrite Rsum_zero; [lra|].
  intros c Hc. rewrite (@concat_get x sq b (heads m) (d_k m) i bb c
                          (st_x_shape T) Hc).
  rewrite (st_x_val T); try assumption.
  - rewrite Rsum_zero; [lra|]. intros j Hj. rewrite Hz. lra.
  - apply Nat.Div0.div_lt_upper_bound. lia.
  - apply Nat.mod_upper_bound. lia.
Qed.

Lemma dropout_one_output_witness :
  exists out a a',
    forward (example_mha 1) query2 keys3 keys3 None even_noise state0
    = (Ok out, mkState (Some a') (tracker state0 ++ [("attn"%string, a)])) /\
    (forall idx, get 0%R a' idx = 0%R) /\
    forall i bb o, i < 2 -> bb < 1 -> o < 4 ->
      get 0%R out [i; bb; o]
      = match lbias (output (example_mha 1)) with
        | Some bv => bv o
        | None => 0%R
        end.
Proof.
  apply (@dropout_one_output (example_mha 1) query2 keys3 keys3 None
           even_noise state0 2 3 1 4).
  - apply example_well_configured.
  - reflexivity.
  - repeat split.
  - exact I.
  - lia.
  - lia.
  - reflexivity.
  - reflexivity.
Defined.

(** ** What the [bias] flag governs *)

(** X20: a constructed module is in training mode; the [bias] flag decides
    whether the three projections have a bias, while the output layer has
    one in either case; the projections map [d_model] features to
    [heads * d_k] and the output layer maps [d_model] to [d_model]. *)
Theorem init_layers (h dm : Z) (prob : R) (bias : bool) (w : Params)
    (m : MultiHeadAttention) :
  init h dm prob bias w = Ok m ->
  training m = true /\ p (dropout m) = prob /\
  lbias (linear (query m)) = (if bias then Some (b_query w) else None) /\
  lbias (linear (key m)) = (if bias then Some (b_key w) else None) /\
  lbias (linear (value m)) = (if bias then Some (b_value w) else None) /\
  lbias (output m) = Some (b_output w) /\
  well_configured m (Z.to_nat dm).
Proof.
  intros H. pose proof (init_well_configured _ _ _ _ _ H) as (Hwc & _).
  destruct (init_Ok_inv _ _ _ _ _ H) as (Hh & Hdm & Hp).
  rewrite (init_ok bias w Hh Hdm Hp) in H. inversion H; subst; clear H.
  simpl. repeat split; try reflexivity; apply Hwc.
Qed.

Lemma init_layers_witness :
  exists m, init 2 4 (1 / 10) false example_params = Ok m /\
    training m = true /\ lbias (linear (query m)) = None /\
    lbias (output m) = Some (b_output example_params).
Proof.
  eexists. split; [apply init_ok; [lia|lia|lra]|].
  match goal with
  | |- training ?m = _ /\ _ =>
      destruct (@init_layers 2 4 (1 / 10) false example_params m)
        as (Ht & _ & Hq & _ & _ & Ho & _)
  end.
  - apply init_ok; [lia|lia|lra].
  - split; [exact Ht|]. split; [exact Hq|exact Ho].
Defined.
